(** * mcp-google-workspace: the OAuth2 credential path of the tool server

    A shallow embedding of [src/server.ts] (the [OAuthServer] callback
    listener and the [GoogleWorkspaceServer] tool-call handler) and of the
    tool table and dispatcher of [src/tools/gmail.ts] and
    [src/tools/calendar.ts].

    The asynchronous methods are written in a state-and-exception monad
    over a [World]: every call on a collaborator (the [GAuthService], the
    HTTP server object, the response object, the logger, [spawn]) appends
    one [Event] to the world's trace, in program order.  [await] is
    sequencing; a rejected promise is [Throw]. *)

From stdpp Require Import gmap strings list fin_maps pretty.
From Stdlib Require Import ZArith.

Local Set Warnings "-register-all".
Local Open Scope string_scope.
Local Open Scope Z_scope.

(** ** JavaScript values *)

(** The values a tool call can carry in [request.params.arguments]:
    JSON data.  Numbers are kept as integers. *)
Inductive JsValue :=
| JsUndefined
| JsNull
| JsBool (b : bool)
| JsNumber (z : Z)
| JsString (s : string)
| JsArray (l : list JsValue)
| JsObject (m : gmap string JsValue).

(** [!v] is [negb (truthy v)]. *)
Definition truthy (v : JsValue) : bool :=
  match v with
  | JsUndefined | JsNull => false
  | JsBool b => b
  | JsNumber z => negb (z =? 0)
  | JsString s => negb (String.eqb s "")
  | JsArray _ | JsObject _ => true
  end.

(** [typeof v === 'object'] (true of [null] and of arrays too). *)
Definition typeof_object (v : JsValue) : bool :=
  match v with
  | JsNull | JsArray _ | JsObject _ => true
  | _ => false
  end.

Definition is_null (v : JsValue) : bool :=
  match v with JsNull => true | _ => false end.

(** [v.k] for a key that is no built-in property ([user_id] is the only
    one the server reads): own properties of an object, [undefined] on an
    array. *)
Definition get_prop (v : JsValue) (k : string) : JsValue :=
  match v with
  | JsObject m => default JsUndefined (m !! k)
  | _ => JsUndefined
  end.

(** [s === v] for a string [s]. *)
Definition strict_eq_string (s : string) (v : JsValue) : bool :=
  match v with
  | JsString t => String.eqb s t
  | _ => false
  end.

(** ** Errors, results and the monad *)

(** A thrown [Error]; only its [message] is ever read. *)
Record Error := mkError { message : string }.

Inductive Res (A : Type) :=
| Ok (a : A)
| Throw (e : Error).
Arguments Ok {A} a.
Arguments Throw {A} e.

Definition M (S A : Type) : Type := S -> Res A * S.

Definition ret {S A} (a : A) : M S A := fun s => (Ok a, s).

Definition bind {S A B} (m : M S A) (k : A -> M S B) : M S B :=
  fun s => match m s with
           | (Ok a, s') => k a s'
           | (Throw e, s') => (Throw e, s')
           end.

Definition throw {S A} (msg : string) : M S A :=
  fun s => (Throw (mkError msg), s).

(** [try { m } catch (error) { h error }] *)
Definition try_catch {S A} (m : M S A) (h : Error -> M S A) : M S A :=
  fun s => match m s with
           | (Ok a, s') => (Ok a, s')
           | (Throw e, s') => h e s'
           end.

(** A pure step that may throw. *)
Definition lift {S A} (r : Res A) : M S A := fun s => (r, s).

Declare Scope js_scope.
Delimit Scope js_scope with js.
Notation "x <- m ;; k" := (bind m (fun x => k))
  (at level 100, m at next level, right associativity) : js_scope.
Notation "m ;;; k" := (bind m (fun _ => k))
  (at level 100, right associativity) : js_scope.

(** ** Conversions of the engine *)

(** What the engine computes and the sources cannot show: the digits of
    a number of magnitude 2^53 or more ([Number::toString]: the shortest
    digits that read back as the same number, in exponent notation from
    1e21 on), and the number a string denotes ([StringToNumber], [None]
    for NaN). *)
Class Engine := mkEngine {
  Number_toString_large : Z -> string;
  StringToNumber : string -> option Z
}.

(** [Number::toString] on an integer: below 2^53 every integer is a
    number of its own and is printed with all its digits. *)
Definition Number_toString `{Engine} (z : Z) : string :=
  if Z.abs z <? 2 ^ 53 then pretty z else Number_toString_large z.

(** [ToString(v)], the conversion that a template literal [`${v}`] and
    [Array.prototype.join] apply to [v].  An array is converted by
    [join()].  An object is converted by its [toString], then by its
    [valueOf]: the inherited [toString] prints [[object Object]]; an own
    [toString] property of JSON data is not callable, the inherited
    [valueOf] gives the object back and an own one is not callable
    either, so no primitive comes out: a [TypeError]. *)
Fixpoint ToString `{Engine} (v : JsValue) : Res string :=
  match v with
  | JsUndefined => Ok "undefined"
  | JsNull => Ok "null"
  | JsBool true => Ok "true"
  | JsBool false => Ok "false"
  | JsNumber z => Ok (Number_toString z)
  | JsString s => Ok s
  | JsArray l =>
      match
        (fix elements (l : list JsValue) : Res (list string) :=
           match l with
           | [] => Ok []
           | x :: rest =>
               match (match x with
                      | JsUndefined | JsNull => Ok ""
                      | _ => ToString x
                      end) with
               | Ok text =>
                   match elements rest with
                   | Ok texts => Ok (text :: texts)
                   | Throw e => Throw e
                   end
               | Throw e => Throw e
               end
           end) l
      with
      | Ok texts => Ok (String.concat "," texts)
      | Throw e => Throw e
      end
  | JsObject m =>
      if bool_decide (is_Some (m !! "toString"))
      then Throw (mkError "Cannot convert object to primitive value")
      else Ok "[object Object]"
  end.

(** The element texts of [xs.join(sep)]: [undefined] and [null] give the
    empty string, any other element its [ToString]. *)
Fixpoint element_texts `{Engine} (xs : list JsValue) : Res (list string) :=
  match xs with
  | [] => Ok []
  | x :: rest =>
      match (match x with
             | JsUndefined | JsNull => Ok ""
             | _ => ToString x
             end) with
      | Ok text =>
          match element_texts rest with
          | Ok texts => Ok (text :: texts)
          | Throw e => Throw e
          end
      | Throw e => Throw e
      end
  end.

(** [ToNumber(v)], [None] for NaN.  An array or an object is first made
    a primitive with the number hint: [valueOf] gives the object back,
    so it is [toString] that decides, as in [ToString]. *)
Definition ToNumber `{Engine} (v : JsValue) : Res (option Z) :=
  match v with
  | JsUndefined => Ok None
  | JsNull => Ok (Some 0)
  | JsBool b => Ok (Some (if b then 1 else 0))
  | JsNumber z => Ok (Some z)
  | JsString s => Ok (StringToNumber s)
  | JsArray _ | JsObject _ =>
      match ToString v with
      | Ok text => Ok (StringToNumber text)
      | Throw e => Throw e
      end
  end.

(** ** Data of the credential layer *)

(** Modelled from the spec: the token record ([TokenSet]: access token,
    optional refresh token, expiry timestamp, granted scopes).  Its
    declaration lives in the OAuth client library; the server reads
    [expiry_date] only ([number | null | undefined], milliseconds). *)
Record Credentials := mkCredentials {
  access_token : option string;
  refresh_token : option string;
  expiry_date : option Z;
  scope : option string
}.

(** What [getStoredCredentials] hands back: an object whose [credentials]
    field holds the tokens. *)
Record OAuth2Client := mkClient { credentials : Credentials }.

Record AccountInfo := mkAccount {
  email : string;
  accountType : string;
  extraInfo : string
}.

(** A value of [querystring.parse(...)]: one string, or an array when the
    key is repeated. *)
Inductive QueryValue :=
| QStr (s : string)
| QArr (l : list string).

(** [!query.code] is [negb (query_truthy (query !! "code"))]. *)
Definition query_truthy (v : option QueryValue) : bool :=
  match v with
  | None => false
  | Some (QStr s) => negb (String.eqb s "")
  | Some (QArr _) => true
  end.

(** An incoming request as [handleRequest] sees it: [pathname] is
    [parseUrl(req.url || '').pathname] ([null] is [None]) and [query] is
    [parseQueryString(url.query || '')].  The method is never inspected. *)
Record Request := mkRequest {
  req_method : string;
  pathname : option string;
  query : gmap string QueryValue
}.

(** ** Tool dispatch ([GmailTools.handleTool], [CalendarTools.handleTool]) *)

(** The private method a tool name is routed to, with the arguments it is
    given. *)
Inductive GmailCall :=
| listAccounts
| queryEmails (args : JsValue)
| getEmailById (args : JsValue)
| bulkGetEmails (args : JsValue)
| createDraft (args : JsValue)
| sendEmail (args : JsValue)
| deleteDraft (args : JsValue)
| reply (args : JsValue)
| forward (args : JsValue)
| getAttachment (args : JsValue)
| bulkSaveAttachments (args : JsValue)
| archive (args : JsValue)
| bulkArchive (args : JsValue).

Inductive CalendarCall :=
| calListAccounts
| listCalendars (args : JsValue)
| getCalendarEvents (args : JsValue)
| createCalendarEvent (args : JsValue)
| updateCalendarEvent (args : JsValue)
| deleteCalendarEvent (args : JsValue)
| respondToCalendarEvent (args : JsValue).

Module GmailTools.

(** Modelled from the spec: the constant [USER_ID_ARG] of
    [types/tool-handler.ts] ("all tools except [*_list_accounts] require
    a [user_id] argument"). *)
Definition USER_ID_ARG : string := "user_id".

Record Tool := mkTool { name : string; required : list string }.

(** The tool table of [getTools], before the filter. *)
Definition allTools : list Tool :=
  [ mkTool "gmail_list_accounts" [];
    mkTool "gmail_query_emails" [USER_ID_ARG];
    mkTool "gmail_get_email" ["email_id"; USER_ID_ARG];
    mkTool "gmail_bulk_get_emails" ["email_ids"; USER_ID_ARG];
    mkTool "gmail_create_draft" ["to"; "subject"; "body"; USER_ID_ARG];
    mkTool "gmail_send_email" ["to"; "subject"; "body"; USER_ID_ARG];
    mkTool "gmail_delete_draft" ["draft_id"; USER_ID_ARG];
    mkTool "gmail_reply" ["original_message_id"; "reply_body"; USER_ID_ARG];
    mkTool "gmail_forward" ["original_message_id"; "to"; USER_ID_ARG];
    mkTool "gmail_get_attachment"
      ["message_id"; "attachment_id"; "mime_type"; "filename"; USER_ID_ARG];
    mkTool "gmail_bulk_save_attachments" ["attachments"; USER_ID_ARG];
    mkTool "gmail_archive" ["message_id"; USER_ID_ARG];
    mkTool "gmail_bulk_archive" ["message_ids"; USER_ID_ARG] ].

Definition neqb (a b : string) : bool := negb (String.eqb a b).

(** [getTools()]; [allow_sending] is [process.env.GMAIL_ALLOW_SENDING]
    ([None] when unset). *)
Definition getTools (allow_sending : option string) : list Tool :=
  List.filter
    (fun tool =>
       if bool_decide (allow_sending = Some "true")
       then true
       else neqb (name tool) "gmail_reply"
            && neqb (name tool) "gmail_create_draft"
            && neqb (name tool) "gmail_forward"
            && neqb (name tool) "gmail_send_email")
    allTools.

(** The [switch] of [handleTool]: the method chosen for [name], or the
    [default] branch's error. *)
Definition handleTool (name : string) (args : JsValue) : Res GmailCall :=
  if String.eqb name "gmail_list_accounts" then Ok listAccounts
  else if String.eqb name "gmail_query_emails" then Ok (queryEmails args)
  else if String.eqb name "gmail_get_email" then Ok (getEmailById args)
  else if String.eqb name "gmail_bulk_get_emails" then Ok (bulkGetEmails args)
  else if String.eqb name "gmail_create_draft" then Ok (createDraft args)
  else if String.eqb name "gmail_send_email" then Ok (sendEmail args)
  else if String.eqb name "gmail_delete_draft" then Ok (deleteDraft args)
  else if String.eqb name "gmail_reply" then Ok (reply args)
  else if String.eqb name "gmail_forward" then Ok (forward args)
  else if String.eqb name "gmail_get_attachment" then Ok (getAttachment args)
  else if String.eqb name "gmail_bulk_save_attachments"
       then Ok (bulkSaveAttachments args)
  else if String.eqb name "gmail_archive" then Ok (archive args)
  else if String.eqb name "gmail_bulk_archive" then Ok (bulkArchive args)
  else Throw (mkError ("Unknown tool: " +:+ name)).

End GmailTools.

Module CalendarTools.

Definition handleTool (name : string) (args : JsValue) : Res CalendarCall :=
  if String.eqb name "calendar_list_accounts" then Ok calListAccounts
  else if String.eqb name "calendar_list" then Ok (listCalendars args)
  else if String.eqb name "calendar_get_events" then Ok (getCalendarEvents args)
  else if String.eqb name "calendar_create_event"
       then Ok (createCalendarEvent args)
  else if String.eqb name "calendar_update_event"
       then Ok (updateCalendarEvent args)
  else if String.eqb name "calendar_delete_event"
       then Ok (deleteCalendarEvent args)
  else if String.eqb name "calendar_respond_event"
       then Ok (respondToCalendarEvent args)
  else Throw (mkError ("Unknown tool: " +:+ name)).

End CalendarTools.

(** ** The world the server runs in *)

(** State of one [http.Server] object made by [createServer], as far as
    the program drives it: [SrvListening port] once [listen(port)] has been
    called on it, [SrvClosed] once [close()] has.  Whether the runtime could
    bind the port is not part of it. *)
Inductive ServerState :=
| SrvCreated
| SrvListening (port : Z)
| SrvClosed.

(** One call on a collaborator. *)
Inductive Event :=
| EvGetAccountInfo
| EvGetStoredCredentials (userId : JsValue)
| EvGetAuthorizationUrl (userId : JsValue)
| EvGetCredentials (code : QueryValue)
| EvGetUserInfo (client : OAuth2Client)
| EvStoreCredentials (client : OAuth2Client) (userId : JsValue)
| EvSpawn (command : string) (argv : list string)
| EvCreateServer (srv : nat)
| EvListen (srv : nat) (port : Z)
| EvClose (srv : nat)
| EvWriteHead (status : Z)
| EvWriteBody (chunk : string)
| EvEnd
| EvGmail (call : GmailCall)
| EvCalendar (call : CalendarCall)
| EvLogError (msg : string).

(** [G] is the state behind the [GAuthService] and the remote APIs (files
    on disk, the provider, the mailboxes); [servers] are the [http.Server]
    objects created so far, an [OAuthServer] being named by its index. *)
Record World (G : Type) := mkWorld {
  backend : G;
  servers : list ServerState;
  trace : list Event
}.
Arguments mkWorld {G} _ _ _.
Arguments backend {G} _.
Arguments servers {G} _.
Arguments trace {G} _.

(** The collaborators whose code is outside [server.ts]: the methods of
    [GAuthService] the server calls, the tool implementations behind the
    dispatchers, and the clock.  Each may succeed or throw, and may change
    [G].  [getUserInfo] receives the client object and may refresh its
    tokens in place: the second component is that same object afterwards,
    which is what [storeCredentials] is then given. *)
Record Backend (G Content : Type) := mkBackend {
  getAccountInfo : G -> Res (list AccountInfo) * G;
  getStoredCredentials : JsValue -> G -> Res (option OAuth2Client) * G;
  getAuthorizationUrl : JsValue -> G -> Res string * G;
  getCredentials : QueryValue -> G -> Res OAuth2Client * G;
  getUserInfo : OAuth2Client -> G -> (Res JsValue * OAuth2Client) * G;
  storeCredentials : OAuth2Client -> JsValue -> G -> Res unit * G;
  gmailImpl : GmailCall -> G -> Res Content * G;
  calendarImpl : CalendarCall -> G -> Res Content * G;
  date_now : G -> Z
}.
Arguments getAccountInfo {G Content} _ _.
Arguments getStoredCredentials {G Content} _ _ _.
Arguments getAuthorizationUrl {G Content} _ _ _.
Arguments getCredentials {G Content} _ _ _.
Arguments getUserInfo {G Content} _ _ _.
Arguments storeCredentials {G Content} _ _ _ _.
Arguments gmailImpl {G Content} _ _ _.
Arguments calendarImpl {G Content} _ _ _.
Arguments date_now {G Content} _ _.

(** The object a tool call resolves to.  [payload] is the [content] field:
    either the tool's own content, or the one text item
    [JSON.stringify({error, success: false}, null, 2)], kept as its
    [error] string. *)
Inductive Payload (Content : Type) :=
| ErrorPayload (error : string)
| ToolContent (c : Content).
Arguments ErrorPayload {Content} error.
Arguments ToolContent {Content} c.

Record CallToolResult (Content : Type) := mkResult {
  isError : bool;
  payload : Payload Content
}.
Arguments mkResult {Content} _ _.
Arguments isError {Content} _.
Arguments payload {Content} _.

Section Server.

Context {G Content : Type} {JS : Engine}.
Variable gauth : Backend G Content.

Local Open Scope js_scope.

(** *** Primitive effects *)

Definition emit (e : Event) : M (World G) unit :=
  fun w => (Ok tt, mkWorld (backend w) (servers w) (trace w ++ [e])).

(** A call on the backend: the event is logged, then the call runs. *)
Definition call {A} (e : Event) (f : G -> Res A * G) : M (World G) A :=
  fun w =>
    let '(r, g') := f (backend w) in
    (r, mkWorld g' (servers w) (trace w ++ [e])).

Definition Date_now : M (World G) Z :=
  fun w => (Ok (date_now gauth (backend w)), w).

Definition logger_error (msg : string) : M (World G) unit := emit (EvLogError msg).

Definition set_server (srv : nat) (st : ServerState) : M (World G) unit :=
  fun w => (Ok tt, mkWorld (backend w) (<[srv := st]> (servers w)) (trace w)).

(** *** class OAuthServer *)

(** [new OAuthServer(gauth)]: [createServer(...)]. *)
Definition new_OAuthServer : M (World G) nat :=
  fun w =>
    let srv := length (servers w) in
    (Ok srv,
     mkWorld (backend w) (servers w ++ [SrvCreated])
             (trace w ++ [EvCreateServer srv])).

(** [listen(port)]: [this.server.listen(port)]. *)
Definition listen (srv : nat) (port : Z) : M (World G) unit :=
  emit (EvListen srv port) ;;;
  set_server srv (SrvListening port).

(** [this.server.close()] *)
Definition server_close (srv : nat) : M (World G) unit :=
  emit (EvClose srv) ;;;
  set_server srv SrvClosed.

(** [handleRequest(req, res)] of the [OAuthServer] [srv]. *)
Definition handleRequest (srv : nat) (req : Request) : M (World G) unit :=
  if negb (bool_decide (pathname req = Some "/code")) then
    emit (EvWriteHead 404) ;;;
    emit EvEnd
  else
    let code := query req !! "code" in
    if negb (query_truthy code) then
      emit (EvWriteHead 400) ;;;
      emit EvEnd
    else
      emit (EvWriteHead 200) ;;;
      emit (EvWriteBody "Auth successful! You can close the tab!") ;;;
      emit EvEnd ;;;
      match code with
      | Some c =>              (* [query.code as string] *)
          _ <- call (EvGetCredentials c) (getCredentials gauth c) ;;
          server_close srv
      | None => ret tt         (* not reached: [query.code] is truthy *)
      end.

(** *** class GoogleWorkspaceServer *)

Definition startAuthFlow (userId : JsValue) : M (World G) unit :=
  authUrl <- call (EvGetAuthorizationUrl userId)
                  (getAuthorizationUrl gauth userId) ;;
  emit (EvSpawn "open" [authUrl]) ;;;
  oauthServer <- new_OAuthServer ;;
  listen oauthServer 4100.

(** [tokens.expiry_date && tokens.expiry_date < Date.now()] *)
Definition credentials_expired (tokens : Credentials) (now : Z) : bool :=
  match expiry_date tokens with
  | Some e => negb (e =? 0) && (e <? now)
  | None => false
  end.

(** [await this.gauth.getUserInfo(credentials)]: the value is dropped;
    what matters afterwards is the [credentials] object, as the call
    left it. *)
Definition userInfo_of (client : OAuth2Client) : M (World G) OAuth2Client :=
  fun w =>
    let '(r, client', g') := getUserInfo gauth client (backend w) in
    (match r with Ok _ => Ok client' | Throw e => Throw e end,
     mkWorld g' (servers w) (trace w ++ [EvGetUserInfo client])).

Definition setupOAuth2 (userId : JsValue) : M (World G) unit :=
  accounts <- call EvGetAccountInfo (getAccountInfo gauth) ;;
  if (length accounts =? 0)%nat then
    throw "No accounts specified in .gauth.json"
  else if negb (existsb (fun a => strict_eq_string (email a) userId) accounts)
  then
    text <- lift (ToString userId) ;;
    throw ("Account for email: " +:+ text +:+ " not specified in .gauth.json")
  else
    stored <- call (EvGetStoredCredentials userId)
                   (getStoredCredentials gauth userId) ;;
    match stored with
    | None => startAuthFlow userId
    | Some client =>
        let tokens := credentials client in
        now <- Date_now ;;
        (if credentials_expired tokens now
         then logger_error "credentials expired, trying refresh"
         else ret tt) ;;;
        (* Refresh access token if needed *)
        client' <- userInfo_of client ;;
        call (EvStoreCredentials client' userId)
             (storeCredentials gauth client' userId)
    end.

Definition error_result (msg : string) : CallToolResult Content :=
  mkResult true (ErrorPayload msg).

(** The routing block: [name.startsWith('gmail_')] and so on. *)
Definition route (name : string) (args : JsValue) : M (World G) Content :=
  if String.prefix "gmail_" name then
    match GmailTools.handleTool name args with
    | Ok c => call (EvGmail c) (gmailImpl gauth c)
    | Throw e => fun w => (Throw e, w)
    end
  else if String.prefix "calendar_" name then
    match CalendarTools.handleTool name args with
    | Ok c => call (EvCalendar c) (calendarImpl gauth c)
    | Throw e => fun w => (Throw e, w)
    end
  else throw ("Unknown tool: " +:+ name).

Definition route_guarded (name : string) (args : JsValue)
  : M (World G) (CallToolResult Content) :=
  try_catch
    (result <- route name args ;;
     ret (mkResult false (ToolContent result)))
    (fun error =>
       logger_error ("Error handling tool " +:+ name +:+ ":") ;;;
       ret (error_result ("Tool execution failed: " +:+ message error))).

(** The [CallToolRequestSchema] handler. *)
Definition callTool (name : string) (args : JsValue)
  : M (World G) (CallToolResult Content) :=
  try_catch
    (if negb (typeof_object args) || is_null args then
       ret (error_result "arguments must be dictionary")
     else if String.eqb name "gmail_list_accounts"
             || String.eqb name "calendar_list_accounts" then
       route_guarded name args
     else if negb (truthy (get_prop args "user_id")) then
       ret (error_result "user_id argument is missing in dictionary")
     else
       setup <- try_catch
                  (setupOAuth2 (get_prop args "user_id") ;;; ret None)
                  (fun error =>
                     logger_error "OAuth2 setup failed:" ;;;
                     ret (Some (error_result
                                  ("OAuth2 setup failed: " +:+ message error)))) ;;
       match setup with
       | Some failure => ret failure
       | None => route_guarded name args
       end)
    (fun error =>
       logger_error "Unexpected error in call_tool:" ;;;
       ret (error_result ("Unexpected error: " +:+ message error))).

End Server.

(** ** The credential layer behind [GAuthService], from its specification *)

Module CredentialLayer.

(** Modelled from the spec: the fixed safety margin of the expiry policy
    ("a fixed tunable, e.g. 60s"), in milliseconds like [Date.now()]. *)
Definition safetyMargin : Z := 60000.

(** Modelled from the spec: the expiry policy of the OAuthClient, "a
    TokenSet is treated as expired when [now >= expiry - safetyMargin]".
    ([services/gauth.ts] is not part of the sources.) *)
Definition spec_expired (margin : Z) (ts : Credentials) (now : Z) : bool :=
  match expiry_date ts with
  | Some e => bool_decide (now >= e - margin)
  | None => false
  end.

(** What the provider answers to a refresh request and to a code
    exchange. *)
Inductive RefreshReply :=
| RefreshGranted (access : string) (expiry : Z) (new_refresh : option string)
| RefreshRejected
| RefreshUnreachable.

Inductive ExchangeReply :=
| ExchangeGranted (account : string) (tokens : Credentials)
| ExchangeInvalidGrant
| ExchangeUnreachable.

(** Accounts file, credential store (one record per account email), the
    clock and the provider. *)
Record State := mkState {
  accounts : list AccountInfo;
  store : gmap string Credentials;
  now : Z;
  refresh_reply : string -> RefreshReply;
  exchange_reply : string -> ExchangeReply
}.

Definition set_store (g : State) (st : gmap string Credentials) : State :=
  mkState (accounts g) st (now g) (refresh_reply g) (exchange_reply g).

(** Modelled from the spec: [refresh(tokenSet)] of the OAuthClient.
    "Fails with ReauthRequired if no refresh token is present or the
    provider rejects it.  On success, if the provider omits a new refresh
    token in its response, the previous refresh token is preserved in the
    updated TokenSet." *)
Definition refresh (ts : Credentials) (provider : string -> RefreshReply)
  : Res Credentials :=
  match refresh_token ts with
  | None => Throw (mkError "ReauthRequired")
  | Some r =>
      match provider r with
      | RefreshGranted access expiry new_refresh =>
          Ok (mkCredentials (Some access)
                            (match new_refresh with
                             | Some r' => Some r'
                             | None => Some r
                             end)
                            (Some expiry)
                            (scope ts))
      | RefreshRejected => Throw (mkError "ReauthRequired")
      | RefreshUnreachable => Throw (mkError "TransientNetworkError")
      end
  end.

(** Modelled from the spec: [list()] of the AccountRegistry, the accounts
    in load order. *)
Definition getAccountInfo (g : State) : Res (list AccountInfo) * State :=
  (Ok (accounts g), g).

(** Modelled from the spec: [read(email)] of the CredentialStore. *)
Definition getStoredCredentials (userId : JsValue) (g : State)
  : Res (option OAuth2Client) * State :=
  match userId with
  | JsString e => (Ok (mkClient <$> store g !! e), g)
  | _ => (Ok None, g)
  end.

(** Modelled from the spec: [write(email, tokenSet)] of the
    CredentialStore, newest write wins. *)
Definition storeCredentials (client : OAuth2Client) (userId : JsValue)
           (g : State) : Res unit * State :=
  match userId with
  | JsString e => (Ok tt, set_store g (<[e := credentials client]> (store g)))
  | _ => (Throw (mkError "StorageError"), g)
  end.

(** Modelled from the spec: [buildAuthorizationUrl(userId, params)], a
    deterministic URL with [response_type=code], offline access and the
    account bound in [state]. *)
Definition getAuthorizationUrl (userId : JsValue) (g : State)
  : Res string * State :=
  match userId with
  | JsString e =>
      (Ok ("https://accounts.google.com/o/oauth2/v2/auth"
           +:+ "?response_type=code&access_type=offline&state=" +:+ e), g)
  | _ => (Throw (mkError "AccountNotConfigured"), g)
  end.

(** Modelled from the spec: [exchangeCode(code)], then the record is
    persisted for the account that granted it. *)
Definition getCredentials (code : QueryValue) (g : State)
  : Res OAuth2Client * State :=
  match code with
  | QStr c =>
      match exchange_reply g c with
      | ExchangeGranted account tokens =>
          (Ok (mkClient tokens), set_store g (<[account := tokens]> (store g)))
      | ExchangeInvalidGrant => (Throw (mkError "InvalidGrantError"), g)
      | ExchangeUnreachable => (Throw (mkError "TransientNetworkError"), g)
      end
  | QArr _ => (Throw (mkError "InvalidGrantError"), g)
  end.

(** Modelled from the spec: the time-of-use check of the CredentialManager
    ("Valid → Expired: detected lazily at time-of-use via the expiry
    policy"; "Expired → Valid: silent refresh succeeds").  The client
    object is updated in place by a successful refresh. *)
Definition getUserInfo (client : OAuth2Client) (g : State)
  : (Res JsValue * OAuth2Client) * State :=
  if spec_expired safetyMargin (credentials client) (now g) then
    match refresh (credentials client) (refresh_reply g) with
    | Ok ts => ((Ok JsNull, mkClient ts), g)
    | Throw e => ((Throw e, client), g)
    end
  else ((Ok JsNull, client), g).

(** The remote Gmail and Calendar operations are opaque: every call
    answers with one fixed content. *)
Definition remote {A} (c : A) (g : State) : Res string * State :=
  (Ok "done", g).

Definition service : Backend State string :=
  mkBackend State string getAccountInfo getStoredCredentials
            getAuthorizationUrl getCredentials getUserInfo storeCredentials
            remote remote now.

End CredentialLayer.

(** ** Concrete worlds used in the examples *)

Module Fixtures.
Import CredentialLayer.

Definition acct (e : string) : AccountInfo := mkAccount e "personal" "".

(** An engine for the examples: they print no number of magnitude 2^53
    or more and read no number from a string. *)
#[export] Instance engine : Engine :=
  mkEngine (fun z => pretty z) (fun _ => None).

Definition t0 : Z := 1700000000000.

(** A record that expired a second ago, with refresh token ["R"]. *)
Definition tokens_old : Credentials :=
  mkCredentials (Some "access-1") (Some "R") (Some (t0 - 1000))
                (Some "mail calendar").

Definition tokens_new : Credentials :=
  mkCredentials (Some "access-9") (Some "R9") (Some (t0 + 3600000))
                (Some "mail calendar").

(** The provider renews ["R"] without reissuing a refresh token, and
    accepts the one code ["ABC"]. *)
Definition provider_r (r : string) : RefreshReply :=
  if String.eqb r "R" then RefreshGranted "access-2" (t0 + 3600000) None
  else RefreshRejected.

Definition provider_x (c : string) : ExchangeReply :=
  if String.eqb c "ABC" then ExchangeGranted "a@x.com" tokens_new
  else ExchangeInvalidGrant.

Definition two_accounts : list AccountInfo := [acct "a@x.com"; acct "b@x.com"].

(** Two configured accounts, nothing stored yet. *)
Definition fresh : World State :=
  mkWorld (mkState two_accounts ∅ t0 provider_r provider_x) [] [].

(** The same, with one callback listener pending. *)
Definition pending : World State :=
  mkWorld (backend fresh) [SrvListening 4100] [].

(** The same accounts, with the expired record stored for [a@x.com]. *)
Definition stored : World State :=
  mkWorld (mkState two_accounts (<["a@x.com" := tokens_old]> ∅) t0
                   provider_r provider_x)
          [] [].

Definition args_for (u : string) : JsValue :=
  JsObject (<["user_id" := JsString u]> ∅).

Definition code_request (q : gmap string QueryValue) : Request :=
  mkRequest "GET" (Some "/code") q.

End Fixtures.

(** ** JavaScript idioms of the tool implementations *)

From Stdlib Require Import Ascii.

Module Js.

(** The characters a Rocq string literal cannot hold directly. *)
Definition dquote : string := String (Ascii.ascii_of_nat 34) "".
Definition CR : string := String (Ascii.ascii_of_nat 13) "".
Definition LF : string := String (Ascii.ascii_of_nat 10) "".
Definition CRLF : string := CR +:+ LF.

(** [args.k] on [args : Record<string, any>]. *)
Definition prop (args : gmap string JsValue) (k : string) : JsValue :=
  default JsUndefined (args !! k).

(** [a || b] *)
Definition or (a b : JsValue) : JsValue := if truthy a then a else b.

(** [v !== undefined] and [v !== false] *)
Definition defined (v : JsValue) : bool :=
  match v with JsUndefined => false | _ => true end.

Definition not_false (v : JsValue) : bool :=
  match v with JsBool false => false | _ => true end.

(** [k in args] *)
Definition has_key (k : string) (args : gmap string JsValue) : bool :=
  bool_decide (is_Some (args !! k)).

(** The arguments as the tool methods receive them.  The handler lets
    objects and arrays through; an array has none of the keys the tools
    read. *)
Definition record_of (args : JsValue) : gmap string JsValue :=
  match args with
  | JsObject m => m
  | _ => ∅
  end.

(** An object literal. *)
Definition obj (fields : list (string * JsValue)) : JsValue :=
  JsObject (list_to_map fields).

Definition of_string (o : option string) : JsValue :=
  match o with Some s => JsString s | None => JsUndefined end.

(** [xs.join(sep)] on an array. *)
Definition join `{Engine} (sep : string) (xs : list JsValue) : Res string :=
  match element_texts xs with
  | Ok texts => Ok (String.concat sep texts)
  | Throw e => Throw e
  end.

(** [v.length === 0]: an empty array, or an object whose [length] is the
    number 0 (a string that reaches the test is truthy, so not empty). *)
Definition length_is_zero (v : JsValue) : bool :=
  match v with
  | JsArray [] => true
  | JsObject m => match m !! "length" with
                  | Some (JsNumber 0) => true
                  | _ => false
                  end
  | _ => false
  end.

(** [Math.max(a, x)] and [Math.min(x, b)] for a number [a], [b] and a
    possibly-NaN [x]. *)
Definition Math_max (a : Z) (x : option Z) : option Z := Z.max a <$> x.
Definition Math_min (x : option Z) (b : Z) : option Z := (fun z => Z.min z b) <$> x.

End Js.

(** ** Base64url input of the Gmail tools ([decodeBase64Data],
    [decodeBase64UrlString]) *)

Module Base64Url.

(** [s.replace(/c/g, d)] for single characters [c], [d]. *)
Fixpoint replaceAll (c d : Ascii.ascii) (s : string) : string :=
  match s with
  | EmptyString => EmptyString
  | String a rest =>
      String (if Ascii.eqb a c then d else a) (replaceAll c d rest)
  end.

(** [.replace(/-/g, '+').replace(/_/g, '/')] *)
Definition toStandard (s : string) : string :=
  replaceAll "_"%char "/"%char (replaceAll "-"%char "+"%char s).

(** ['='.repeat(n)] *)
Fixpoint repeat_eq (n : nat) : string :=
  match n with
  | O => EmptyString
  | S k => String "="%char (repeat_eq k)
  end.

(** ['='.repeat((4 - s.length % 4) % 4)]; the length counts code units,
    which for base64 text are its characters. *)
Definition padding (s : string) : string :=
  repeat_eq ((4 - String.length s mod 4) mod 4)%nat.

(** The text handed to [Buffer.from(..., 'base64')]. *)
Definition padded (data : string) : string :=
  toStandard data +:+ padding (toStandard data).

Section Decode.

(** [Buffer.from(s, 'base64')], and the same followed by
    [.toString('utf-8')], which may throw as far as the [try] block
    knows. *)
Context {Buffer : Type}.
Variable Buffer_from_base64 : string -> Buffer.
Variable Buffer_to_utf8 : string -> Res string.

Definition decodeBase64Data (fileData : string) : Buffer :=
  Buffer_from_base64 (padded fileData).

Definition decodeBase64UrlString (base64UrlString : string) : string :=
  match Buffer_to_utf8 (padded base64UrlString) with
  | Ok text => text
  | Throw _ => "[Error decoding content]"
  end.

End Decode.

End Base64Url.

(** ** Messages as the Gmail API returns them *)

(** [Schema$MessagePartHeader] *)
Record Header := mkHeader {
  header_name : option string;
  header_value : option string
}.

(** [Schema$MessagePart]; [body_data] and [body_attachmentId] are
    [part.body?.data] and [part.body?.attachmentId]. *)
Inductive MessagePart := mkPart {
  partId : option string;
  filename : option string;
  mimeType : option string;
  headers : option (list Header);
  body_data : option string;
  body_attachmentId : option string;
  parts : option (list MessagePart)
}.

(** [Schema$Message], the fields the tools read. *)
Record Message := mkMessage {
  msg_id : option string;
  msg_threadId : option string;
  msg_labelIds : option (list string);
  msg_payload : option MessagePart
}.

(** [{}] where a part is expected ([payload || {}]). *)
Definition empty_part : MessagePart :=
  mkPart None None None None None None None.

(** Truthiness of an optional string ([undefined], [null] and [""] are
    falsy). *)
Definition str_truthy (o : option string) : bool :=
  match o with
  | Some s => negb (String.eqb s "")
  | None => false
  end.

(** [part.mimeType === m] *)
Definition is_mime (m : string) (p : MessagePart) : bool :=
  bool_decide (mimeType p = Some m).

(** ** Text and header extraction ([GmailTools], private helpers) *)

Module MailExtract.

Section Extract.

(** [String.prototype.toLowerCase] and the base64url decoder of
    [GmailTools]. *)
Variable toLowerCase : string -> string.
Variable decodeBase64UrlString : string -> string.

(** [o[key] = v] on a plain object creates the key, except that
    ["__proto__"] goes to the prototype setter and creates none. *)
Definition own_key (key : string) : bool :=
  negb (String.eqb key "__proto__").

Definition importantHeaders : list string :=
  ["from"; "to"; "cc"; "bcc"; "subject"; "date"; "reply-to"].

(** One round of the [forEach] of [extractEmailHeaders]. *)
Definition keep_header (result : gmap string string) (header : Header)
  : gmap string string :=
  if str_truthy (header_name header) && str_truthy (header_value header) then
    let headerName := toLowerCase (default "" (header_name header)) in
    if bool_decide (headerName ∈ importantHeaders)
    then <[headerName := default "" (header_value header)]> result
    else result
  else result.

Definition extractEmailHeaders (headers : list Header) : gmap string string :=
  fold_left keep_header headers ∅.

(** One round of the [reduce] of [reply] and [forward] (and of the
    [forEach] of [queryEmails]): every header, not only the important
    ones. *)
Definition keep_any_header (acc : gmap string string) (header : Header)
  : gmap string string :=
  if str_truthy (header_name header) && str_truthy (header_value header) then
    let key := toLowerCase (default "" (header_name header)) in
    if own_key key then <[key := default "" (header_value header)]> acc
    else acc
  else acc.

(** The decoded text of a part found by [find], when its [body.data] is
    truthy. *)
Definition text_of (found : option MessagePart) : option string :=
  match found with
  | Some p =>
      if str_truthy (body_data p)
      then Some (decodeBase64UrlString (default "" (body_data p)))
      else None
  | None => None
  end.

Fixpoint extractEmailText (payload : MessagePart) : string :=
  match payload with
  | mkPart _ _ mt _ data _ ps =>
      (* For simple text emails *)
      if bool_decide (mt = Some "text/plain") && str_truthy data then
        decodeBase64UrlString (default "" data)
      (* For HTML-only emails *)
      else if bool_decide (mt = Some "text/html") && str_truthy data then
        decodeBase64UrlString (default "" data)
      else
        match ps with
        | Some ps =>
            (* First try to find text/plain part *)
            match text_of (List.find (is_mime "text/plain") ps) with
            | Some text => text
            | None =>
                (* If no text/plain, try text/html *)
                match text_of (List.find (is_mime "text/html") ps) with
                | Some text => text
                | None =>
                    (* Recursively check nested multipart structures *)
                    (fix loop (l : list MessagePart) : string :=
                       match l with
                       | [] => ""
                       | part :: rest =>
                           match parts part with
                           | Some _ =>
                               let nestedText := extractEmailText part in
                               if negb (String.eqb nestedText "")
                               then nestedText
                               else loop rest
                           | None => loop rest
                           end
                       end) ps
                end
            end
        | None => ""
        end
  end.

(** The [for] loop of [extractEmailText], by name. *)
Fixpoint nested_text (l : list MessagePart) : string :=
  match l with
  | [] => ""
  | part :: rest =>
      match parts part with
      | Some _ =>
          let nestedText := extractEmailText part in
          if negb (String.eqb nestedText "") then nestedText
          else nested_text rest
      | None => nested_text rest
      end
  end.

(** The property key [part.partId] makes: the string ["undefined"] when
    the part has no [partId]. *)
Definition part_key (part : MessagePart) : string :=
  default "undefined" (partId part).

(** The attachments object of [getEmailById]: one entry per direct part
    with a truthy [body.attachmentId], keyed by [partId]. *)
Definition attachment_entry (part : MessagePart) : JsValue :=
  Js.obj [("filename", Js.of_string (filename part));
          ("mimeType", Js.of_string (mimeType part));
          ("attachmentId", Js.of_string (body_attachmentId part))].

Definition collect_attachment (attachments : gmap string JsValue)
           (part : MessagePart) : gmap string JsValue :=
  if str_truthy (body_attachmentId part) then
    let key := part_key part in
    if own_key key then <[key := attachment_entry part]> attachments
    else attachments
  else attachments.

Definition attachmentsOf (payload : option MessagePart) : gmap string JsValue :=
  match payload with
  | Some p =>
      match parts p with
      | Some ps => fold_left collect_attachment ps ∅
      | None => ∅
      end
  | None => ∅
  end.

End Extract.

End MailExtract.

(** ** The remote APIs *)

(** [Schema$EventAttendee]: the fields [respondToCalendarEvent] reads or
    writes, and the rest of the object. *)
Record Attendee := mkAttendee {
  att_email : option string;
  att_self : bool;
  att_responseStatus : option string;
  att_other : gmap string JsValue
}.

(** [Schema$Event] as [events.get] returns it. *)
Record EventData := mkEventData {
  ev_summary : JsValue;
  ev_attendees : option (list Attendee)
}.

(** The [params] object of [events.list]; [lp_maxResults] is [None] for
    NaN, [lp_timeMax] is [None] when the key is not set. *)
Record EventsListParams := mkListParams {
  lp_calendarId : JsValue;
  lp_timeMin : JsValue;
  lp_maxResults : option Z;
  lp_singleEvents : bool;
  lp_orderBy : string;
  lp_showDeleted : JsValue;
  lp_timeMax : option JsValue
}.

(** One request of [this.gmail] or [this.calendar], with the parameters
    the tools pass. *)
Inductive ApiRequest :=
| GmailMessagesGet (userId id : JsValue) (format : option string)
| GmailDraftsCreate (userId : JsValue) (raw : string) (threadId : option string)
| GmailMessagesSend (userId : JsValue) (raw : string) (threadId : option string)
| GmailDraftsDelete (userId id : JsValue)
| GmailMessagesModify (userId id : JsValue) (removeLabelIds : list string)
| CalendarListList
| EventsList (params : EventsListParams)
| EventsInsert (calendarId requestBody : JsValue) (sendUpdates : string)
| EventsPatch (calendarId eventId requestBody : JsValue) (sendUpdates : string)
| EventsPatchAttendees (calendarId eventId : JsValue)
                       (attendees : list Attendee) (sendUpdates : string)
| EventsDelete (calendarId eventId : JsValue) (sendUpdates : string)
| EventsGet (calendarId eventId : JsValue).

(** One item of a tool's answer: [{type: 'text', text}], where the text
    is either [JSON.stringify(v, null, 2)] or a plain string. *)
Inductive TextContent :=
| Json (v : JsValue)
| Plain (text : string).

(** State of the remote services together with the requests sent so far,
    in order. *)
Record Remote (G : Type) := mkRemote {
  remote_state : G;
  requests : list ApiRequest
}.
Arguments mkRemote {G} _ _.
Arguments remote_state {G} _.
Arguments requests {G} _.

(** What lies outside the tool files: the API endpoints by the type of
    their answer ([response.data], [response.data.items], nothing), the
    library functions the tools call, [account.toDescription()], and the
    [try] blocks of the methods that are not modelled (by method name). *)
Record Api (G : Type) := mkApi {
  reply_message : ApiRequest -> G -> Res Message * G;
  reply_json : ApiRequest -> G -> Res JsValue * G;
  reply_items : ApiRequest -> G -> Res (option (list JsValue)) * G;
  reply_unit : ApiRequest -> G -> Res unit * G;
  reply_event : ApiRequest -> G -> Res EventData * G;
  base64url : string -> string;
  toISOString_now : G -> string;
  toLowerCase : string -> string;
  Buffer_to_utf8 : string -> Res string;
  toDescription : AccountInfo -> string;
  other_body : string -> gmap string JsValue
               -> Remote G -> Res (list TextContent) * Remote G
}.
Arguments reply_message {G} _ _ _.
Arguments reply_json {G} _ _ _.
Arguments reply_items {G} _ _ _.
Arguments reply_unit {G} _ _ _.
Arguments reply_event {G} _ _ _.
Arguments base64url {G} _ _.
Arguments toISOString_now {G} _ _.
Arguments toLowerCase {G} _ _.
Arguments Buffer_to_utf8 {G} _ _.
Arguments toDescription {G} _ _.
Arguments other_body {G} _ _ _ _.

Section ApiCalls.

Context {G : Type} {JS : Engine}.

(** A request: logged, then answered. *)
Definition send {A} (r : ApiRequest) (answer : ApiRequest -> G -> Res A * G)
  : M (Remote G) A :=
  fun s =>
    let '(a, g') := answer r (remote_state s) in
    (a, mkRemote g' (requests s ++ [r])).

(** A call that is no API request (the accounts file). *)
Definition local {A} (f : G -> Res A * G) : M (Remote G) A :=
  fun s =>
    let '(a, g') := f (remote_state s) in
    (a, mkRemote g' (requests s)).

(** [if (!x) throw new Error(`Missing required argument: ${what}`)] *)
Definition require (present : bool) (what : string) : M (Remote G) unit :=
  if present then ret tt
  else throw ("Missing required argument: " +:+ what).

(** [v.join(sep)], a [TypeError] when [v] is no array. *)
Definition array_join (sep what : string) (v : JsValue) : M (Remote G) string :=
  match v with
  | JsArray xs => lift (Js.join sep xs)
  | _ => throw (what +:+ ".join is not a function")
  end.

(** [`${v}`] inside a method. *)
Definition text_of (v : JsValue) : M (Remote G) string := lift (ToString v).

(** [data.k] on a value the API answered, for a key that is no built-in
    property: a [TypeError] on [undefined] and [null]. *)
Definition field (data : JsValue) (k : string) : M (Remote G) JsValue :=
  match data with
  | JsUndefined | JsNull =>
      throw ("Cannot read properties of "
             +:+ (if is_null data then "null" else "undefined")
             +:+ " (reading '" +:+ k +:+ "')")
  | _ => ret (get_prop data k)
  end.

(** [items?.map(view) || []], where [view] reads properties of each
    item: a [TypeError] on an item that is [undefined] or [null]. *)
Fixpoint each_item (view : JsValue -> JsValue) (items : list JsValue)
  : M (Remote G) (list JsValue) :=
  match items with
  | [] => ret []
  | item :: rest =>
      match item with
      | JsUndefined | JsNull =>
          throw ("Cannot read properties of "
                 +:+ (if is_null item then "null" else "undefined")
                 +:+ " (reading 'id')")
      | _ => bind (each_item view rest) (fun views => ret (view item :: views))
      end
  end.

Definition map_items (view : JsValue -> JsValue)
           (items : option (list JsValue)) : M (Remote G) (list JsValue) :=
  match items with
  | Some items => each_item view items
  | None => ret []
  end.

End ApiCalls.

(** ** The Gmail tool methods *)

Module GmailMethods.

Section Methods.

Context {G : Type} {JS : Engine}.
Variable api : Api G.
Variable getAccountInfo : G -> Res (list AccountInfo) * G.

Local Open Scope js_scope.

Definition USER_ID_ARG := GmailTools.USER_ID_ARG.

Definition decodeBase64UrlString : string -> string :=
  Base64Url.decodeBase64UrlString (Buffer_to_utf8 api).

Definition extractEmailHeaders : list Header -> gmap string string :=
  MailExtract.extractEmailHeaders (toLowerCase api).

Definition extractEmailText : MessagePart -> string :=
  MailExtract.extractEmailText decodeBase64UrlString.

(** [listAccounts()], the same text in [GmailTools] and in
    [CalendarTools]. *)
Definition listAccounts : M (Remote G) (list TextContent) :=
  try_catch
    (accounts <- local getAccountInfo ;;
     let accountList :=
       List.map (fun account =>
                   Js.obj [("email", JsString (email account));
                           ("accountType", JsString (accountType account));
                           ("extraInfo", JsString (extraInfo account));
                           ("description",
                            JsString (toDescription api account))])
                accounts in
     if (length accountList =? 0)%nat then
       ret [Json (Js.obj
                    [("message",
                      JsString ("No accounts configured. "
                                +:+ "Please check your .accounts.json file."));
                     ("accounts", JsArray [])])]
     else
       ret [Json (Js.obj
                    [("message",
                      JsString ("Found " +:+ pretty (length accountList)
                                +:+ " configured account(s)"));
                     ("accounts", JsArray accountList)])])
    (fun error =>
       ret [Json (Js.obj
                    [("error",
                      JsString ("Failed to list accounts: "
                                +:+ message error));
                     ("accounts", JsArray [])])]).

Definition queryEmails (args : gmap string JsValue)
  : M (Remote G) (list TextContent) :=
  require (truthy (Js.prop args USER_ID_ARG)) USER_ID_ARG ;;;
  other_body api "queryEmails" args.

(** The simplified email object of [getEmailById] and [bulkGetEmails]. *)
Definition email_view (email : Message) : JsValue :=
  let headers :=
    extractEmailHeaders (default [] (msg_payload email ≫= headers)) in
  let textContent := extractEmailText (default empty_part (msg_payload email)) in
  let attachments := MailExtract.attachmentsOf (msg_payload email) in
  let hasAttachments := (0 <? size attachments)%nat in
  Js.obj [("id", Js.of_string (msg_id email));
          ("threadId", Js.of_string (msg_threadId email));
          ("labelIds", match msg_labelIds email with
                       | Some ls => JsArray (JsString <$> ls)
                       | None => JsUndefined
                       end);
          ("headers", JsObject (JsString <$> headers));
          ("textContent", JsString textContent);
          ("hasAttachments", JsBool hasAttachments);
          ("attachments",
           if hasAttachments then JsObject attachments else JsUndefined)].

Definition getEmailById (args : gmap string JsValue)
  : M (Remote G) (list TextContent) :=
  let userId := Js.prop args USER_ID_ARG in
  let emailId := Js.prop args "email_id" in
  require (truthy userId) USER_ID_ARG ;;;
  require (truthy emailId) "email_id" ;;;
  email <- send (GmailMessagesGet userId emailId (Some "full"))
                (reply_message api) ;;
  ret [Json (email_view email)].

Definition bulkGetEmails (args : gmap string JsValue)
  : M (Remote G) (list TextContent) :=
  let emailIds := Js.prop args "email_ids" in
  require (truthy (Js.prop args USER_ID_ARG)) USER_ID_ARG ;;;
  require (truthy emailIds && negb (Js.length_is_zero emailIds)) "email_ids" ;;;
  other_body api "bulkGetEmails" args.

(** The header lines that end every message the tools build. *)
Definition content_type_lines : string :=
  "Content-Type: text/plain; charset=" +:+ Js.dquote +:+ "UTF-8"
  +:+ Js.dquote +:+ Js.CRLF +:+ Js.CRLF.

Definition createDraft (args : gmap string JsValue)
  : M (Remote G) (list TextContent) :=
  let userId := Js.prop args USER_ID_ARG in
  let to := Js.prop args "to" in
  let subject := Js.prop args "subject" in
  let body := Js.prop args "body" in
  let cc := Js.or (Js.prop args "cc") (JsArray []) in
  require (truthy userId) USER_ID_ARG ;;;
  require (truthy to) "to" ;;;
  require (truthy subject) "subject" ;;;
  require (truthy body) "body" ;;;
  toText <- text_of to ;;
  subjectText <- text_of subject ;;
  ccList <- array_join ", " "cc" cc ;;
  bodyText <- text_of body ;;
  let raw :=
    base64url api
      ("To: " +:+ toText +:+ Js.CRLF
       +:+ "Subject: " +:+ subjectText +:+ Js.CRLF
       +:+ "Cc: " +:+ ccList +:+ Js.CRLF
       +:+ content_type_lines
       +:+ bodyText) in
  draft <- send (GmailDraftsCreate userId raw None) (reply_json api) ;;
  ret [Json draft].

(** [cc.length > 0]: the length of an array or a string, the [length]
    property of an object converted to a number, [undefined] (hence
    false) otherwise. *)
Definition length_positive (v : JsValue) : M (Remote G) bool :=
  match v with
  | JsArray xs => ret (negb (bool_decide (xs = [])))
  | JsString s => ret (negb (String.eqb s ""))
  | JsObject m =>
      n <- lift (ToNumber (Js.prop m "length")) ;;
      ret (match n with
           | Some n => 0 <? n
           | None => false
           end)
  | _ => ret false
  end.

Definition sendEmail (args : gmap string JsValue)
  : M (Remote G) (list TextContent) :=
  let userId := Js.prop args USER_ID_ARG in
  let to := Js.prop args "to" in
  let subject := Js.prop args "subject" in
  let body := Js.prop args "body" in
  let cc := Js.or (Js.prop args "cc") (JsArray []) in
  require (truthy userId) USER_ID_ARG ;;;
  require (truthy to) "to" ;;;
  require (truthy subject) "subject" ;;;
  require (truthy body) "body" ;;;
  nonempty <- length_positive cc ;;
  ccHeader <- (if nonempty
               then ccList <- array_join ", " "cc" cc ;;
                    ret ("Cc: " +:+ ccList +:+ Js.CRLF)
               else ret "") ;;
  toText <- text_of to ;;
  subjectText <- text_of subject ;;
  bodyText <- text_of body ;;
  let raw :=
    base64url api
      ("To: " +:+ toText +:+ Js.CRLF
       +:+ "Subject: " +:+ subjectText +:+ Js.CRLF
       +:+ ccHeader
       +:+ content_type_lines
       +:+ bodyText) in
  result <- send (GmailMessagesSend userId raw None) (reply_json api) ;;
  id <- field result "id" ;;
  threadId <- field result "threadId" ;;
  ret [Json (Js.obj [("success", JsBool true);
                     ("message", JsString "Email sent successfully");
                     ("id", id);
                     ("threadId", threadId)])].

Definition deleteDraft (args : gmap string JsValue)
  : M (Remote G) (list TextContent) :=
  let userId := Js.prop args USER_ID_ARG in
  let draftId := Js.prop args "draft_id" in
  require (truthy userId) USER_ID_ARG ;;;
  require (truthy draftId) "draft_id" ;;;
  send (GmailDraftsDelete userId draftId) (reply_unit api) ;;;
  draftText <- text_of draftId ;;
  ret [Plain ("Draft " +:+ draftText +:+ " deleted successfully")].

(** [payload?.headers?.reduce(...)]: every header by lower-cased name,
    [undefined] when the payload or its headers are missing. *)
Definition all_headers (email : Message) : option (gmap string string) :=
  (fun hs => fold_left (MailExtract.keep_any_header (toLowerCase api)) hs ∅)
    <$> (msg_payload email ≫= headers).

(** [headers.k || ''] *)
Definition header_or_empty (hs : gmap string string) (k : string) : string :=
  default "" (hs !! k).

Definition reply (args : gmap string JsValue)
  : M (Remote G) (list TextContent) :=
  let userId := Js.prop args USER_ID_ARG in
  let originalMessageId := Js.prop args "original_message_id" in
  let replyBody := Js.prop args "reply_body" in
  let send_flag := Js.or (Js.prop args "send") (JsBool false) in
  let cc := Js.or (Js.prop args "cc") (JsArray []) in
  require (truthy userId) USER_ID_ARG ;;;
  require (truthy originalMessageId) "original_message_id" ;;;
  require (truthy replyBody) "reply_body" ;;;
  (* First get the original message to extract headers *)
  originalMessage <- send (GmailMessagesGet userId originalMessageId None)
                          (reply_message api) ;;
  match all_headers originalMessage with
  | None => throw "Could not extract headers from original message"
  | Some hs =>
      (* Get the threadId from the original message *)
      if negb (str_truthy (msg_threadId originalMessage)) then
        throw "Could not extract threadId from original message"
      else
        let threadId := default "" (msg_threadId originalMessage) in
        idText <- text_of originalMessageId ;;
        ccList <- array_join ", " "cc" cc ;;
        bodyText <- text_of replyBody ;;
        let raw :=
          base64url api
            ("In-Reply-To: " +:+ idText +:+ Js.CRLF
             +:+ "References: " +:+ idText +:+ Js.CRLF
             +:+ "Subject: Re: " +:+ header_or_empty hs "subject" +:+ Js.CRLF
             +:+ "To: " +:+ header_or_empty hs "from" +:+ Js.CRLF
             +:+ "Cc: " +:+ ccList +:+ Js.CRLF
             +:+ content_type_lines
             +:+ bodyText) in
        if truthy send_flag then
          send (GmailMessagesSend userId raw (Some threadId)) (reply_json api) ;;;
          ret [Plain "Reply sent successfully"]
        else
          draft <- send (GmailDraftsCreate userId raw (Some threadId))
                        (reply_json api) ;;
          ret [Json draft]
  end.

Definition forwarded_header : string :=
  "---------- Forwarded message ---------" +:+ Js.LF.

Definition forward (args : gmap string JsValue)
  : M (Remote G) (list TextContent) :=
  let userId := Js.prop args USER_ID_ARG in
  let originalMessageId := Js.prop args "original_message_id" in
  let to := Js.prop args "to" in
  let additionalMessage := Js.or (Js.prop args "additional_message") (JsString "") in
  let send_flag := Js.or (Js.prop args "send") (JsBool false) in
  require (truthy userId) USER_ID_ARG ;;;
  require (truthy originalMessageId) "original_message_id" ;;;
  require (truthy to) "to" ;;;
  (* Get the original message *)
  originalMessage <- send (GmailMessagesGet userId originalMessageId (Some "full"))
                          (reply_message api) ;;
  match all_headers originalMessage with
  | None => throw "Could not extract headers from original message"
  | Some hs =>
      (* Extract the original message body *)
      let originalBody :=
        extractEmailText (default empty_part (msg_payload originalMessage)) in
      (* Build forwarded message *)
      let quoted :=
        forwarded_header
        +:+ "From: " +:+ header_or_empty hs "from" +:+ Js.LF
        +:+ "Date: " +:+ header_or_empty hs "date" +:+ Js.LF
        +:+ "Subject: " +:+ header_or_empty hs "subject" +:+ Js.LF
        +:+ "To: " +:+ header_or_empty hs "to" +:+ Js.LF +:+ Js.LF
        +:+ originalBody in
      forwardedContent <-
        (if truthy additionalMessage
         then messageText <- text_of additionalMessage ;;
              ret (messageText +:+ Js.LF +:+ Js.LF +:+ quoted)
         else ret quoted) ;;
      toText <- text_of to ;;
      let raw :=
        base64url api
          ("To: " +:+ toText +:+ Js.CRLF
           +:+ "Subject: Fwd: " +:+ header_or_empty hs "subject" +:+ Js.CRLF
           +:+ content_type_lines
           +:+ forwardedContent) in
      if truthy send_flag then
        send (GmailMessagesSend userId raw None) (reply_json api) ;;;
        ret [Plain "Forward sent successfully"]
      else
        draft <- send (GmailDraftsCreate userId raw None) (reply_json api) ;;
        ret [Json draft]
  end.

Definition getAttachment (args : gmap string JsValue)
  : M (Remote G) (list TextContent) :=
  require (truthy (Js.prop args USER_ID_ARG)) USER_ID_ARG ;;;
  require (truthy (Js.prop args "message_id")) "message_id" ;;;
  require (truthy (Js.prop args "attachment_id")) "attachment_id" ;;;
  require (truthy (Js.prop args "mime_type")) "mime_type" ;;;
  require (truthy (Js.prop args "filename")) "filename" ;;;
  other_body api "getAttachment" args.

Definition bulkSaveAttachments (args : gmap string JsValue)
  : M (Remote G) (list TextContent) :=
  let attachments := Js.prop args "attachments" in
  require (truthy (Js.prop args USER_ID_ARG)) USER_ID_ARG ;;;
  require (truthy attachments && negb (Js.length_is_zero attachments))
          "attachments" ;;;
  other_body api "bulkSaveAttachments" args.

Definition archive (args : gmap string JsValue)
  : M (Remote G) (list TextContent) :=
  let userId := Js.prop args USER_ID_ARG in
  let messageId := Js.prop args "message_id" in
  require (truthy userId) USER_ID_ARG ;;;
  require (truthy messageId) "message_id" ;;;
  send (GmailMessagesModify userId messageId ["INBOX"]) (reply_unit api) ;;;
  messageText <- text_of messageId ;;
  ret [Plain ("Message " +:+ messageText +:+ " archived successfully")].

Definition bulkArchive (args : gmap string JsValue)
  : M (Remote G) (list TextContent) :=
  let messageIds := Js.prop args "message_ids" in
  require (truthy (Js.prop args USER_ID_ARG)) USER_ID_ARG ;;;
  require (truthy messageIds && negb (Js.length_is_zero messageIds))
          "message_ids" ;;;
  other_body api "bulkArchive" args.

End Methods.

End GmailMethods.

(** ** The Calendar tool methods *)

Module CalendarMethods.

Section Methods.

Context {G : Type} {JS : Engine}.
Variable api : Api G.

Local Open Scope js_scope.

Definition USER_ID_ARG := GmailTools.USER_ID_ARG.
Definition CALENDAR_ID_ARG : string := "calendar_id".

(** [calendar => ({id, summary, primary: calendar.primary || false, ...})] *)
Definition calendar_view (calendar : JsValue) : JsValue :=
  Js.obj [("id", get_prop calendar "id");
          ("summary", get_prop calendar "summary");
          ("primary", Js.or (get_prop calendar "primary") (JsBool false));
          ("timeZone", get_prop calendar "timeZone");
          ("etag", get_prop calendar "etag");
          ("accessRole", get_prop calendar "accessRole")].

Definition listCalendars (args : gmap string JsValue)
  : M (Remote G) (list TextContent) :=
  require (truthy (Js.prop args USER_ID_ARG)) USER_ID_ARG ;;;
  items <- send CalendarListList (reply_items api) ;;
  calendars <- map_items calendar_view items ;;
  ret [Json (JsArray calendars)].

(** [Math.min(Math.max(1, args.max_results || 250), 2500)]; the
    conversion of the argument to a number may throw. *)
Definition maxResults (args : gmap string JsValue) : Res (option Z) :=
  match ToNumber (Js.or (Js.prop args "max_results") (JsNumber 250)) with
  | Ok x => Ok (Js.Math_min (Js.Math_max 1 x) 2500)
  | Throw e => Throw e
  end.

Definition event_view (event : JsValue) : JsValue :=
  Js.obj [("id", get_prop event "id");
          ("summary", get_prop event "summary");
          ("description", get_prop event "description");
          ("start", get_prop event "start");
          ("end", get_prop event "end");
          ("status", get_prop event "status");
          ("creator", get_prop event "creator");
          ("organizer", get_prop event "organizer");
          ("attendees", get_prop event "attendees");
          ("location", get_prop event "location");
          ("hangoutLink", get_prop event "hangoutLink");
          ("conferenceData", get_prop event "conferenceData");
          ("recurringEventId", get_prop event "recurringEventId")].

(** The [params] of [getCalendarEvents], [now] being
    [new Date().toISOString()] and [limit] being [maxResults]. *)
Definition list_params (args : gmap string JsValue) (now : string)
           (limit : option Z) : EventsListParams :=
  mkListParams
    (Js.or (Js.prop args CALENDAR_ID_ARG) (JsString "primary"))
    (Js.or (Js.prop args "time_min") (JsString now))
    limit
    true
    "startTime"
    (Js.or (Js.prop args "show_deleted") (JsBool false))
    (if truthy (Js.prop args "time_max")
     then Some (Js.prop args "time_max") else None).

Definition getCalendarEvents (args : gmap string JsValue)
  : M (Remote G) (list TextContent) :=
  require (truthy (Js.prop args USER_ID_ARG)) USER_ID_ARG ;;;
  now <- (fun s => (Ok (toISOString_now api (remote_state s)), s)) ;;
  limit <- lift (maxResults args) ;;
  items <- send (EventsList (list_params args now limit)) (reply_items api) ;;
  events <- map_items event_view items ;;
  ret [Json (JsArray events)].

(** [args.send_notifications ? 'all' : 'none'] and
    [args.k !== false ? 'all' : 'none'] *)
Definition sendUpdates_if_truthy (v : JsValue) : string :=
  if truthy v then "all" else "none".

Definition sendUpdates_unless_false (v : JsValue) : string :=
  if Js.not_false v then "all" else "none".

Definition required_keys : list string := ["summary"; "start_time"; "end_time"].

(** [required.filter(key => !(key in args)).join(', ')] *)
Definition missing_keys (args : gmap string JsValue) : list string :=
  List.filter (fun key => negb (Js.has_key key args)) required_keys.

(** [args.attendees?.map((email) => ({ email }))] *)
Definition attendees_of (v : JsValue) : M (Remote G) JsValue :=
  match v with
  | JsUndefined | JsNull => ret JsUndefined
  | JsArray emails =>
      ret (JsArray (List.map (fun email => Js.obj [("email", email)]) emails))
  | _ => throw "args.attendees?.map is not a function"
  end.

Definition createCalendarEvent (args : gmap string JsValue)
  : M (Remote G) (list TextContent) :=
  require (truthy (Js.prop args USER_ID_ARG)) USER_ID_ARG ;;;
  if negb (forallb (fun key => Js.has_key key args) required_keys) then
    throw ("Missing required arguments: "
           +:+ String.concat ", " (missing_keys args))
  else
    let timezone := Js.or (Js.prop args "timezone") (JsString "UTC") in
    attendees <- attendees_of (Js.prop args "attendees") ;;
    let event :=
      Js.obj [("summary", Js.prop args "summary");
              ("location", Js.prop args "location");
              ("description", Js.prop args "description");
              ("start", Js.obj [("dateTime", Js.prop args "start_time");
                                ("timeZone", timezone)]);
              ("end", Js.obj [("dateTime", Js.prop args "end_time");
                              ("timeZone", timezone)]);
              ("attendees", attendees)] in
    data <- send (EventsInsert
                    (Js.or (Js.prop args CALENDAR_ID_ARG) (JsString "primary"))
                    event
                    (sendUpdates_if_truthy (Js.prop args "send_notifications")))
                 (reply_json api) ;;
    ret [Json data].

(** [if (args.k !== undefined) updatePayload.field = value] *)
Definition set_if_defined (args : gmap string JsValue) (k field : string)
           (value : JsValue) (payload : gmap string JsValue)
  : gmap string JsValue :=
  if Js.defined (Js.prop args k) then <[field := value]> payload else payload.

(** The update payload, "with only provided fields". *)
Definition updatePayload (args : gmap string JsValue) : gmap string JsValue :=
  let timezone := Js.or (Js.prop args "timezone") (JsString "UTC") in
  set_if_defined args "end_time" "end"
    (Js.obj [("dateTime", Js.prop args "end_time"); ("timeZone", timezone)])
  (set_if_defined args "start_time" "start"
    (Js.obj [("dateTime", Js.prop args "start_time"); ("timeZone", timezone)])
  (set_if_defined args "description" "description" (Js.prop args "description")
  (set_if_defined args "location" "location" (Js.prop args "location")
  (set_if_defined args "summary" "summary" (Js.prop args "summary") ∅)))).

Definition updateCalendarEvent (args : gmap string JsValue)
  : M (Remote G) (list TextContent) :=
  let eventId := Js.prop args "event_id" in
  require (truthy (Js.prop args USER_ID_ARG)) USER_ID_ARG ;;;
  require (truthy eventId) "event_id" ;;;
  try_catch
    (data <- send (EventsPatch
                     (Js.or (Js.prop args CALENDAR_ID_ARG) (JsString "primary"))
                     eventId
                     (JsObject (updatePayload args))
                     (sendUpdates_unless_false (Js.prop args "send_notifications")))
                  (reply_json api) ;;
     ret [Json (Js.obj [("success", JsBool true);
                        ("message", JsString "Event successfully updated");
                        ("event", data)])])
    (fun error =>
       ret [Json (Js.obj [("success", JsBool false);
                          ("message",
                           JsString ("Failed to update event: "
                                     +:+ message error))])]).

Definition deleteCalendarEvent (args : gmap string JsValue)
  : M (Remote G) (list TextContent) :=
  let eventId := Js.prop args "event_id" in
  require (truthy (Js.prop args USER_ID_ARG)) USER_ID_ARG ;;;
  require (truthy eventId) "event_id" ;;;
  try_catch
    (send (EventsDelete
             (Js.or (Js.prop args CALENDAR_ID_ARG) (JsString "primary"))
             eventId
             (sendUpdates_if_truthy (Js.prop args "send_notifications")))
          (reply_unit api) ;;;
     ret [Json (Js.obj [("success", JsBool true);
                        ("message", JsString "Event successfully deleted")])])
    (fun _ =>
       ret [Json (Js.obj [("success", JsBool false);
                          ("message", JsString "Failed to delete event")])]).

(** [['accepted', 'declined', 'tentative'].includes(response)] *)
Definition valid_response (response : JsValue) : bool :=
  match response with
  | JsString r => bool_decide (r ∈ ["accepted"; "declined"; "tentative"])
  | _ => false
  end.

(** [attendee.email?.toLowerCase() === userId.toLowerCase() || attendee.self] *)
Definition is_user (userId : string) (attendee : Attendee) : bool :=
  match att_email attendee with
  | Some e => String.eqb (toLowerCase api e) (toLowerCase api userId)
  | None => false
  end
  || att_self attendee.

(** [{ ...attendee, responseStatus: response }] *)
Definition with_response (response : string) (attendee : Attendee) : Attendee :=
  mkAttendee (att_email attendee) (att_self attendee) (Some response)
             (att_other attendee).

Definition updatedAttendees (userId response : string)
           (attendees : list Attendee) : list Attendee :=
  List.map (fun attendee =>
              if is_user userId attendee
              then with_response response attendee
              else attendee)
           attendees.

Definition failure (msg : string) : list TextContent :=
  [Json (Js.obj [("success", JsBool false); ("message", JsString msg)])].

Definition respondToCalendarEvent (args : gmap string JsValue)
  : M (Remote G) (list TextContent) :=
  let userId := Js.prop args USER_ID_ARG in
  let eventId := Js.prop args "event_id" in
  let response := Js.prop args "response" in
  require (truthy userId) USER_ID_ARG ;;;
  require (truthy eventId) "event_id" ;;;
  if negb (truthy response) || negb (valid_response response) then
    throw ("Missing or invalid required argument: response (must be "
           +:+ Js.dquote +:+ "accepted" +:+ Js.dquote +:+ ", "
           +:+ Js.dquote +:+ "declined" +:+ Js.dquote +:+ ", or "
           +:+ Js.dquote +:+ "tentative" +:+ Js.dquote +:+ ")")
  else
    try_catch
      (let calendarId :=
         Js.or (Js.prop args CALENDAR_ID_ARG) (JsString "primary") in
       (* First, get the current event to find the attendees list *)
       event <- send (EventsGet calendarId eventId) (reply_event api) ;;
       match ev_attendees event with
       | None | Some [] =>
           ret (failure ("This event has no attendees list. You may be the "
                         +:+ "organizer or this is a personal event."))
       | Some attendees =>
           match userId, response with
           | JsString user, JsString answer =>
               let updated := updatedAttendees user answer attendees in
               (* Check if user was found in attendees *)
               if negb (existsb (is_user user) attendees) then
                 ret (failure ("User " +:+ user
                               +:+ " not found in the event's attendees list."))
               else
                 data <- send (EventsPatchAttendees
                                 calendarId eventId updated
                                 (sendUpdates_unless_false
                                    (Js.prop args "send_notification")))
                              (reply_json api) ;;
                 summaryText <- text_of (ev_summary event) ;;
                 id <- field data "id" ;;
                 summary <- field data "summary" ;;
                 start <- field data "start" ;;
                 end_ <- field data "end" ;;
                 ret [Json (Js.obj
                       [("success", JsBool true);
                        ("message",
                         JsString ("Successfully responded " +:+ Js.dquote
                                   +:+ answer +:+ Js.dquote +:+ " to event "
                                   +:+ Js.dquote +:+ summaryText
                                   +:+ Js.dquote));
                        ("event",
                         Js.obj [("id", id);
                                 ("summary", summary);
                                 ("start", start);
                                 ("end", end_);
                                 ("yourResponse", JsString answer)])])]
           | _, _ => throw "userId.toLowerCase is not a function"
           end
       end)
      (fun error =>
         ret (failure ("Failed to respond to event: " +:+ message error))).

End Methods.

End CalendarMethods.

(** ** The tool methods behind the dispatchers *)

Module ToolLayer.

Section Implement.

Context {G Content : Type} {JS : Engine}.
Variable gauth : Backend G Content.
Variable api : Api G.

(** [GmailTools.handleTool] after its [switch]: the method called. *)
Definition runGmail (c : GmailCall) : M (Remote G) (list TextContent) :=
  match c with
  | listAccounts => GmailMethods.listAccounts api (getAccountInfo gauth)
  | queryEmails args => GmailMethods.queryEmails api (Js.record_of args)
  | getEmailById args => GmailMethods.getEmailById api (Js.record_of args)
  | bulkGetEmails args => GmailMethods.bulkGetEmails api (Js.record_of args)
  | createDraft args => GmailMethods.createDraft api (Js.record_of args)
  | sendEmail args => GmailMethods.sendEmail api (Js.record_of args)
  | deleteDraft args => GmailMethods.deleteDraft api (Js.record_of args)
  | reply args => GmailMethods.reply api (Js.record_of args)
  | forward args => GmailMethods.forward api (Js.record_of args)
  | getAttachment args => GmailMethods.getAttachment api (Js.record_of args)
  | bulkSaveAttachments args =>
      GmailMethods.bulkSaveAttachments api (Js.record_of args)
  | archive args => GmailMethods.archive api (Js.record_of args)
  | bulkArchive args => GmailMethods.bulkArchive api (Js.record_of args)
  end.

(** [CalendarTools.handleTool] after its [switch]. *)
Definition runCalendar (c : CalendarCall) : M (Remote G) (list TextContent) :=
  match c with
  | calListAccounts => GmailMethods.listAccounts api (getAccountInfo gauth)
  | listCalendars args => CalendarMethods.listCalendars api (Js.record_of args)
  | getCalendarEvents args =>
      CalendarMethods.getCalendarEvents api (Js.record_of args)
  | createCalendarEvent args =>
      CalendarMethods.createCalendarEvent api (Js.record_of args)
  | updateCalendarEvent args =>
      CalendarMethods.updateCalendarEvent api (Js.record_of args)
  | deleteCalendarEvent args =>
      CalendarMethods.deleteCalendarEvent api (Js.record_of args)
  | respondToCalendarEvent args =>
      CalendarMethods.respondToCalendarEvent api (Js.record_of args)
  end.

(** The server's collaborators with the tool methods in place: the
    [GAuthService] of [gauth], which sends no API request, and the
    methods above. *)
Definition implement : Backend (Remote G) (list TextContent) :=
  mkBackend (Remote G) (list TextContent)
    (local (getAccountInfo gauth))
    (fun userId => local (getStoredCredentials gauth userId))
    (fun userId => local (getAuthorizationUrl gauth userId))
    (fun code => local (getCredentials gauth code))
    (fun client s =>
       let '(r, client', g') := getUserInfo gauth client (remote_state s) in
       ((r, client'), mkRemote g' (requests s)))
    (fun client userId => local (storeCredentials gauth client userId))
    runGmail
    runCalendar
    (fun s => date_now gauth (remote_state s)).

End Implement.

End ToolLayer.

(** ** The advertised tools ([ListToolsRequestSchema] handler) *)

Module ToolList.

(** [CalendarTools.getTools()]: names and [required] lists. *)
Definition calendarTools : list GmailTools.Tool :=
  [ GmailTools.mkTool "calendar_list_accounts" [];
    GmailTools.mkTool "calendar_list" [GmailTools.USER_ID_ARG];
    GmailTools.mkTool "calendar_get_events" [GmailTools.USER_ID_ARG];
    GmailTools.mkTool "calendar_create_event"
      [GmailTools.USER_ID_ARG; "summary"; "start_time"; "end_time"];
    GmailTools.mkTool "calendar_update_event"
      [GmailTools.USER_ID_ARG; "event_id"];
    GmailTools.mkTool "calendar_delete_event"
      [GmailTools.USER_ID_ARG; "event_id"];
    GmailTools.mkTool "calendar_respond_event"
      [GmailTools.USER_ID_ARG; "event_id"; "response"] ].

(** The handler's answer: [[...gmail.getTools(), ...calendar.getTools()]]. *)
Definition listTools (allow_sending : option string) : list GmailTools.Tool :=
  GmailTools.getTools allow_sending ++ calendarTools.

(** The method a tool name reaches through the routing block of the
    server, run on the arguments; the error of the [default] branches
    otherwise. *)
Definition run_tool {G Content} `{Engine}
           (gauth : Backend G Content) (api : Api G)
           (name : string) (args : JsValue) : M (Remote G) (list TextContent) :=
  if String.prefix "gmail_" name then
    match GmailTools.handleTool name args with
    | Ok c => ToolLayer.runGmail gauth api c
    | Throw e => fun s => (Throw e, s)
    end
  else if String.prefix "calendar_" name then
    match CalendarTools.handleTool name args with
    | Ok c => ToolLayer.runCalendar gauth api c
    | Throw e => fun s => (Throw e, s)
    end
  else throw ("Unknown tool: " +:+ name).

End ToolList.

(** ** The standalone authentication script ([auth-helper.mjs]) *)

Module AuthHelper.

Section Helper.

Context {G Content : Type}.
Variable gauth : Backend G Content.

Local Open Scope js_scope.

(** [res.end(text)] *)
Definition end_with (text : string) : M (World G) unit :=
  emit (EvWriteBody text) ;;;
  emit EvEnd.

(** The request listener of the script's server [srv].  The value is the
    status [process.exit] was called with, [None] while the script keeps
    running.  Lines printed to the console are not part of the trace. *)
Definition handleRequest (srv : nat) (req : Request) : M (World G) (option Z) :=
  if negb (bool_decide (pathname req = Some "/code")) then
    emit (EvWriteHead 404) ;;;
    emit EvEnd ;;;
    ret None
  else
    let code := query req !! "code" in
    if negb (query_truthy code) then
      emit (EvWriteHead 400) ;;;
      end_with "Missing code" ;;;
      ret None
    else
      match code with
      | Some c =>
          try_catch
            (_ <- call (EvGetCredentials c) (getCredentials gauth c) ;;
             emit (EvWriteHead 200) ;;;
             end_with "Authentication successful! You can close this tab." ;;;
             server_close srv ;;;
             ret (Some 0))
            (fun error =>
               emit (EvWriteHead 500) ;;;
               end_with ("Authentication failed: " +:+ message error) ;;;
               server_close srv ;;;
               ret (Some 1))
      | None => ret None       (* not reached: [query.code] is truthy *)
      end.

End Helper.

End AuthHelper.

(** ** More concrete worlds *)

Module Samples.

Import CredentialLayer Fixtures.

(** Lower case for ASCII letters. *)
Definition lower_ascii (c : ascii) : ascii :=
  let n := nat_of_ascii c in
  if ((65 <=? n) && (n <=? 90))%nat then ascii_of_nat (n + 32) else c.

Fixpoint lower (s : string) : string :=
  match s with
  | EmptyString => EmptyString
  | String c rest => String (lower_ascii c) (lower rest)
  end.

Definition plain_part (data : string) : MessagePart :=
  mkPart None None (Some "text/plain") None (Some data) None None.

Definition html_part (data : string) : MessagePart :=
  mkPart None None (Some "text/html") None (Some data) None None.

Definition multipart (ps : list MessagePart) : MessagePart :=
  mkPart None None (Some "multipart/alternative") None None None (Some ps).

Definition guest (e : string) : Attendee :=
  mkAttendee (Some e) false (Some "needsAction") ∅.

(** A message with two headers, and an event with two guests. *)
Definition letter : Message :=
  mkMessage (Some "m1") (Some "t1") None
    (Some (mkPart None None (Some "multipart/alternative")
                  (Some [mkHeader (Some "Subject") (Some "Hello");
                         mkHeader (Some "From") (Some "b@x.com")])
                  None None
                  (Some [html_part "PGI+"; plain_part "aGk="]))).

Definition meeting : EventData :=
  mkEventData (JsString "Review") (Some [guest "a@x.com"; guest "b@x.com"]).

(** Remote services that answer every request the same way, and library
    functions standing in for the real ones (the decoders are the
    identity). *)
Definition api : Api State :=
  mkApi State
    (fun _ g => (Ok letter, g))
    (fun _ g => (Ok (Js.obj [("id", JsString "m1")]), g))
    (fun _ g => (Ok None, g))
    (fun _ g => (Ok tt, g))
    (fun _ g => (Ok meeting, g))
    (fun s => s)
    (fun _ => "2024-01-01T00:00:00.000Z")
    lower
    (fun s => Ok s)
    (fun a => email a)
    (fun _ _ s => (Ok [], s)).

(** A world of [Fixtures] seen with the tool methods in place. *)
Definition remote_of (w : World State) : World (Remote State) :=
  mkWorld (mkRemote (backend w) []) (servers w) (trace w).

(** The accounts of [Fixtures], with an expired record for [a@x.com]
    whose refresh token the provider no longer accepts. *)
Definition tokens_revoked : Credentials :=
  mkCredentials (Some "access-1") (Some "gone") (Some (t0 - 1000))
                (Some "mail calendar").

Definition stale : World State :=
  mkWorld (mkState two_accounts (<["a@x.com" := tokens_revoked]> ∅) t0
                   provider_r provider_x)
          [] [].

Definition args_of (fields : list (string * JsValue)) : gmap string JsValue :=
  list_to_map fields.

End Samples.

(** ** Vocabulary of the tool properties *)

(** [q] is [p] or a part nested in [p] at any depth. *)
Inductive part_within : MessagePart -> MessagePart -> Prop :=
| within_self p : part_within p p
| within_parts q p ps r :
    parts p = Some ps -> r ∈ ps -> part_within q r -> part_within q p.

(** A part whose text [extractEmailText] can return: [text/plain] or
    [text/html] with a non-empty [body.data]. *)
Definition text_part (q : MessagePart) : Prop :=
  (mimeType q = Some "text/plain" ∨ mimeType q = Some "text/html")
  ∧ str_truthy (body_data q) = true.


(** A header the extractors take into account: name and value both
    truthy. *)
Definition usable_header (h : Header) : bool :=
  str_truthy (header_name h) && str_truthy (header_value h).


(** A computation that adds only requests satisfying [P] to the log,
    whatever it returns. *)
Definition only_sends {G A} (P : ApiRequest -> bool) (m : M (Remote G) A)
  : Prop :=
  ∀ s r s', m s = (r, s') ->
            ∃ new, requests s' = (requests s ++ new)%list
                   ∧ forallb P new = true.

(** A computation that sends no request at all. *)
Definition silent {G A} (m : M (Remote G) A) : Prop :=
  ∀ s r s', m s = (r, s') -> requests s' = requests s.

(** The [sendUpdates] parameter of a request that has one. *)
Definition sendUpdates_of (q : ApiRequest) : option string :=
  match q with
  | EventsInsert _ _ u | EventsPatch _ _ _ u | EventsPatchAttendees _ _ _ u
  | EventsDelete _ _ u => Some u
  | _ => None
  end.

(** What [respondToCalendarEvent] may change in an attendee: nothing but
    [responseStatus]. *)
Definition same_person (a b : Attendee) : Prop :=
  att_email b = att_email a ∧ att_self b = att_self a
  ∧ att_other b = att_other a.

(** A computation of the server that leaves the server objects alone. *)
Definition keeps_servers {G A} (m : M (World G) A) : Prop :=
  ∀ w r w', m w = (r, w') -> servers w' = servers w.

(** Events that belong to an interactive flow. *)
Definition flow_event (e : Event) : bool :=
  match e with
  | EvGetAuthorizationUrl _ | EvSpawn _ _ | EvCreateServer _ | EvListen _ _ => true
  | _ => false
  end.

(** The names in the tool tables, sending tools included. *)
Definition all_tool_names : list string :=
  GmailTools.name <$> (GmailTools.allTools ++ ToolList.calendarTools)%list.


(** ** Vocabulary of the properties *)


(** Calls that leave the process for the provider or the remote APIs: the
    code exchange, the user-info request (with the refresh it may need) and
    the tool implementations. *)
Definition contacts_provider (e : Event) : bool :=
  match e with
  | EvGetCredentials _ | EvGetUserInfo _ | EvGmail _ | EvCalendar _ => true
  | _ => false
  end.

(** The exchange of an authorization code, and the write of a record. *)
Definition exchange_event (e : Event) : bool :=
  match e with EvGetCredentials _ => true | _ => false end.

Definition store_event (e : Event) : bool :=
  match e with EvStoreCredentials _ _ => true | _ => false end.

Definition tool_event (e : Event) : bool :=
  match e with EvGmail _ | EvCalendar _ => true | _ => false end.

(** Events on the HTTP response object. *)
Definition response_event (e : Event) : bool :=
  match e with EvWriteHead _ | EvWriteBody _ | EvEnd => true | _ => false end.

(** Number of server objects told to listen on [port] and not closed
    since. *)
Definition listening_on (port : Z) (s : ServerState) : bool :=
  match s with SrvListening p => p =? port | _ => false end.

Definition pending_listeners {G} (port : Z) (w : World G) : nat :=
  length (List.filter (listening_on port) (servers w)).

(** The two tools that take no [user_id]. *)
Definition list_accounts_tool (name : string) : bool :=
  String.eqb name "gmail_list_accounts"
  || String.eqb name "calendar_list_accounts".



(** * Properties *)

(** ** The tool table and the dispatcher *)



Lemma getTools_allow_all :
  GmailTools.getTools (Some "true") = GmailTools.allTools.
Proof. reflexivity. Qed.



(** ** The tool-call handler *)

Section HandlerFacts.

Context {G Content : Type} {JS : Engine}.
Variable gauth : Backend G Content.

Implicit Types (w : World G) (name : string) (args userId : JsValue).

(** The server object made last is the one that is told to listen. *)
Lemma insert_last_created (l : list ServerState) (x y : ServerState) :
  <[length l := x]> (l ++ [y])%list = (l ++ [x])%list.
Proof.
  induction l as [| a l IH]; simpl; [reflexivity |].
  f_equal. exact IH.
Qed.

(** The routing block catches whatever the dispatcher or the tool
    throws. *)
Lemma route_guarded_total name args w :
  ∃ r w', route_guarded gauth name args w = (Ok r, w').
Proof.
  unfold route_guarded, try_catch, bind.
  destruct (route gauth name args w) as [[c | e] w1]; simpl; eauto.
Qed.

Lemma try_catch_ok {A} (m : M (World G) A) (h : Error -> M (World G) A) w r w' :
  m w = (Ok r, w') -> try_catch m h w = (Ok r, w').
Proof. intros H. unfold try_catch. by rewrite H. Qed.

(** What the handler does once the arguments carry a truthy [user_id]
    for a tool other than the two [list_accounts] tools: credential
    setup, then either its failure as a result or the routing block. *)
Lemma callTool_protected name args w :
  typeof_object args = true -> is_null args = false ->
  list_accounts_tool name = false ->
  truthy (get_prop args "user_id") = true ->
  callTool gauth name args w =
  match setupOAuth2 gauth (get_prop args "user_id") w with
  | (Ok _, w1) => route_guarded gauth name args w1
  | (Throw e, w1) =>
      (Ok (error_result ("OAuth2 setup failed: " +:+ message e)),
       mkWorld (backend w1) (servers w1)
               (trace w1 ++ [EvLogError "OAuth2 setup failed:"]))
  end.
Proof.
  intros Hobj Hnull Hlist Huid.
  unfold list_accounts_tool in Hlist.
  destruct (setupOAuth2 gauth (get_prop args "user_id") w) as [[[] | e] w1] eqn:Hs.
  - destruct (route_guarded_total name args w1) as (r & w2 & Hr).
    rewrite Hr. apply try_catch_ok.
    rewrite Hobj, Hnull, Hlist, Huid. simpl.
    unfold bind at 1. unfold try_catch at 1. unfold bind at 1.
    rewrite Hs. simpl. exact Hr.
  - apply try_catch_ok.
    rewrite Hobj, Hnull, Hlist, Huid. simpl.
    unfold bind at 1. unfold try_catch at 1. unfold bind at 1.
    rewrite Hs. reflexivity.
Qed.


(** C9: for a tool other than [gmail_list_accounts] and
    [calendar_list_accounts], an arguments object without a [user_id] key
    is answered with the error result naming the missing [user_id]; the
    world is left as it was, so no OAuth setup was attempted and no tool
    implementation was invoked. *)
Theorem missing_user_id_rejected name (m : gmap string JsValue) w :
  name ≠ "gmail_list_accounts" ->
  name ≠ "calendar_list_accounts" ->
  m !! "user_id" = None ->
  callTool gauth name (JsObject m) w =
  (Ok (mkResult true
         (ErrorPayload "user_id argument is missing in dictionary")), w).
Proof.
  intros Hg Hc Hm.
  apply try_catch_ok. simpl.
  apply String.eqb_neq in Hg, Hc. rewrite Hg, Hc. simpl.
  rewrite Hm. reflexivity.
Qed.

End HandlerFacts.

(** ** Credential setup *)

Section SetupFacts.

Context {G Content : Type} {JS : Engine}.
Variable gauth : Backend G Content.

Implicit Types (w : World G) (name : string) (args userId : JsValue).

(** Validation of [userId] against the accounts: when no account has
    that email, [setupOAuth2] throws right after [getAccountInfo], with
    one message when no account is loaded at all and another one, which
    names [userId], otherwise. *)
Lemma setupOAuth2_unknown userId w accounts g1 :
  getAccountInfo gauth (backend w) = (Ok accounts, g1) ->
  existsb (fun a => strict_eq_string (email a) userId) accounts = false ->
  setupOAuth2 gauth userId w =
  (match accounts with
   | [] => Throw (mkError "No accounts specified in .gauth.json")
   | _ :: _ =>
       match ToString userId with
       | Ok text =>
           Throw (mkError ("Account for email: " +:+ text
                           +:+ " not specified in .gauth.json"))
       | Throw e => Throw e
       end
   end,
   mkWorld g1 (servers w) (trace w ++ [EvGetAccountInfo])).
Proof.
  intros Hacc Hnone.
  unfold setupOAuth2. unfold bind at 1. unfold call. rewrite Hacc.
  destruct accounts as [| a l]; [reflexivity |].
  cbn [length Nat.eqb]. rewrite Hnone. cbn [negb].
  unfold bind, lift, throw. cbn [backend servers trace].
  by destruct (ToString userId).
Qed.

Lemma existsb_email_false (u : string) (accounts : list AccountInfo) :
  (∀ a, a ∈ accounts -> email a ≠ u) ->
  existsb (fun a => strict_eq_string (email a) (JsString u)) accounts = false.
Proof.
  intros Hall. induction accounts as [| a l IH]; [reflexivity |].
  cbn [existsb]. rewrite IH.
  - rewrite orb_false_r. apply String.eqb_neq, Hall. by left.
  - intros b Hb. apply Hall. by right.
Qed.

Lemma existsb_email_true (u : string) (accounts : list AccountInfo) :
  (∃ a, a ∈ accounts ∧ email a = u) ->
  existsb (fun a => strict_eq_string (email a) (JsString u)) accounts = true
  ∧ (length accounts =? 0)%nat = false.
Proof.
  intros (a & Hin & Heq). split.
  - apply existsb_exists. exists a. split.
    + by apply list_elem_of_In.
    + simpl. by apply String.eqb_eq.
  - destruct accounts; [by apply elem_of_nil in Hin | reflexivity].
Qed.

(** [startAuthFlow]: URL, browser, a new server object told to listen on
    4100, and return. *)
Lemma startAuthFlow_run userId w url g1 :
  getAuthorizationUrl gauth userId (backend w) = (Ok url, g1) ->
  startAuthFlow gauth userId w =
  (Ok tt,
   mkWorld g1 (servers w ++ [SrvListening 4100])
           (trace w ++ [EvGetAuthorizationUrl userId; EvSpawn "open" [url];
                        EvCreateServer (length (servers w));
                        EvListen (length (servers w)) 4100])).
Proof.
  intros Hurl.
  unfold startAuthFlow, bind, call. rewrite Hurl. simpl.
  unfold listen, server_close, set_server, emit, bind. simpl.
  rewrite insert_last_created, <- !app_assoc. reflexivity.
Qed.

(** A failed refresh inside [getUserInfo] leaves [setupOAuth2] as a thrown
    error, before anything is written back. *)
Lemma setupOAuth2_refresh_failure (u : string) w accounts g1 client g2 e c' g3 :
  getAccountInfo gauth (backend w) = (Ok accounts, g1) ->
  (∃ a, a ∈ accounts ∧ email a = u) ->
  getStoredCredentials gauth (JsString u) g1 = (Ok (Some client), g2) ->
  getUserInfo gauth client g2 = ((Throw e, c'), g3) ->
  ∃ w1, setupOAuth2 gauth (JsString u) w = (Throw e, w1)
        ∧ backend w1 = g3
        ∧ existsb store_event (trace w1) = existsb store_event (trace w).
Proof.
  intros Hacc Hin Hst Hinfo.
  destruct (existsb_email_true u accounts Hin) as [Hex Hlen].
  unfold setupOAuth2, bind, call, Date_now, userInfo_of, logger_error, emit.
  rewrite Hacc, Hlen, Hex. cbn [negb backend servers trace]. rewrite Hst.
  cbn [backend].
  destruct (credentials_expired (credentials client) (date_now gauth g2));
    unfold ret; cbn [backend servers trace]; rewrite Hinfo;
    (eexists; split; [reflexivity |]); split; try reflexivity;
    cbn [trace]; rewrite !existsb_app; simpl; by rewrite !orb_false_r.
Qed.

Lemma pending_listeners_snoc w (g : G) (t : list Event) :
  pending_listeners 4100 (mkWorld g (servers w ++ [SrvListening 4100]) t)
  = S (pending_listeners 4100 w).
Proof.
  unfold pending_listeners. simpl.
  rewrite List.filter_app, length_app. simpl. lia.
Qed.

End SetupFacts.

Section CredentialProperties.

Context {G Content : Type} {JS : Engine}.
Variable gauth : Backend G Content.

Implicit Types (w : World G) (name : string) (args userId : JsValue).

Lemma not_list_accounts name :
  name ≠ "gmail_list_accounts" -> name ≠ "calendar_list_accounts" ->
  list_accounts_tool name = false.
Proof.
  intros Hg Hc. unfold list_accounts_tool.
  apply String.eqb_neq in Hg, Hc. by rewrite Hg, Hc.
Qed.

Lemma truthy_nonempty (u : string) : u ≠ "" -> truthy (JsString u) = true.
Proof. intros Hu. simpl. apply String.eqb_neq in Hu. by rewrite Hu. Qed.

(** C1, as the code has it: for an account with no stored record, a
    protected tool call asks for the authorization URL of that account,
    opens it, makes a callback listener listen on port 4100, and then goes
    on to the routing block at once; it does not wait for the callback,
    the exchange or the write of the record. *)
Theorem first_use_starts_flow_and_proceeds
        name (m : gmap string JsValue) (u : string) w accounts g1 g2 url g3 :
  name ≠ "gmail_list_accounts" ->
  name ≠ "calendar_list_accounts" ->
  m !! "user_id" = Some (JsString u) ->
  u ≠ "" ->
  getAccountInfo gauth (backend w) = (Ok accounts, g1) ->
  (∃ a, a ∈ accounts ∧ email a = u) ->
  getStoredCredentials gauth (JsString u) g1 = (Ok None, g2) ->
  getAuthorizationUrl gauth (JsString u) g2 = (Ok url, g3) ->
  callTool gauth name (JsObject m) w =
  route_guarded gauth name (JsObject m)
    (mkWorld g3 (servers w ++ [SrvListening 4100])
             (trace w ++ [EvGetAccountInfo;
                          EvGetStoredCredentials (JsString u);
                          EvGetAuthorizationUrl (JsString u);
                          EvSpawn "open" [url];
                          EvCreateServer (length (servers w));
                          EvListen (length (servers w)) 4100])).
Proof.
  intros Hg Hc Hm Hu Hacc Hin Hst Hurl.
  rewrite callTool_protected;
    [ | reflexivity | reflexivity | by apply not_list_accounts
      | simpl; rewrite Hm; by apply truthy_nonempty ].
  simpl get_prop. rewrite Hm. simpl default.
  destruct (existsb_email_true u accounts Hin) as [Hex Hlen].
  unfold setupOAuth2. unfold bind at 1. unfold call at 1.
  rewrite Hacc, Hlen, Hex. cbn [negb].
  unfold bind at 1. unfold call at 1. cbn [backend servers trace].
  rewrite Hst.
  rewrite (startAuthFlow_run gauth (JsString u) _ url g3); [| exact Hurl].
  cbn [backend servers trace]. rewrite <- !app_assoc. reflexivity.
Qed.

(** C3, as the code has it: for a non-empty [user_id] string that is the
    email of no loaded account, every call of a tool other than the two
    [list_accounts] tools is answered with the error result of the failed
    account validation; apart from [getAccountInfo] and the log line
    nothing was called, so no request went to the provider. *)
Theorem unknown_account_rejected
        name (m : gmap string JsValue) (u : string) w accounts g1 :
  name ≠ "gmail_list_accounts" ->
  name ≠ "calendar_list_accounts" ->
  m !! "user_id" = Some (JsString u) ->
  u ≠ "" ->
  getAccountInfo gauth (backend w) = (Ok accounts, g1) ->
  (∀ a, a ∈ accounts -> email a ≠ u) ->
  ∃ new,
    callTool gauth name (JsObject m) w =
    (Ok (mkResult true
           (ErrorPayload
              ("OAuth2 setup failed: "
               +:+ match accounts with
                   | [] => "No accounts specified in .gauth.json"
                   | _ :: _ => "Account for email: " +:+ u
                               +:+ " not specified in .gauth.json"
                   end))),
     mkWorld g1 (servers w) (trace w ++ new))
    ∧ new = [EvGetAccountInfo; EvLogError "OAuth2 setup failed:"]
    ∧ existsb contacts_provider new = false.
Proof.
  intros Hg Hc Hm Hu Hacc Hnone.
  pose proof (setupOAuth2_unknown gauth (JsString u) w accounts g1 Hacc
                (existsb_email_false u accounts Hnone)) as Hrun.
  exists [EvGetAccountInfo; EvLogError "OAuth2 setup failed:"].
  split; [| split; reflexivity].
  rewrite callTool_protected;
    [ | reflexivity | reflexivity | by apply not_list_accounts
      | simpl; rewrite Hm; by apply truthy_nonempty ].
  simpl get_prop. rewrite Hm. simpl default. rewrite Hrun.
  destruct accounts as [| a l];
    cbn [ToString backend servers trace message];
    rewrite <- app_assoc; reflexivity.
Qed.

(** C6, as the code has it: [startAuthFlow] takes no lock and looks at no
    pending listener.  Started while a listener is pending on port 4100,
    it returns normally, with one more server object told to listen on
    that port. *)
Theorem second_flow_opens_second_listener userId w url g1 :
  (0 < pending_listeners 4100 w)%nat ->
  getAuthorizationUrl gauth userId (backend w) = (Ok url, g1) ->
  ∃ w',
    startAuthFlow gauth userId w = (Ok tt, w')
    ∧ servers w' = (servers w ++ [SrvListening 4100])%list
    ∧ pending_listeners 4100 w' = S (pending_listeners 4100 w).
Proof.
  intros _ Hurl. eexists. split; [by apply startAuthFlow_run |].
  split; [reflexivity | apply pending_listeners_snoc].
Qed.

End CredentialProperties.

(** ** The callback listener *)

Section ListenerProperties.

Context {G Content : Type}.
Variable gauth : Backend G Content.

Implicit Types (w : World G) (req : Request) (srv : nat).

Lemma pathname_test req :
  negb (bool_decide (pathname req = Some "/code")) = false
  ↔ pathname req = Some "/code".
Proof.
  rewrite negb_false_iff, bool_decide_eq_true. reflexivity.
Qed.

(** Any path but [/code]: 404, nothing else. *)
Lemma handleRequest_other_path srv req w :
  pathname req ≠ Some "/code" ->
  handleRequest gauth srv req w =
  (Ok tt, mkWorld (backend w) (servers w)
                  (trace w ++ [EvWriteHead 404; EvEnd])).
Proof.
  intros Hp. unfold handleRequest.
  rewrite (bool_decide_eq_false_2 _ Hp). simpl.
  unfold bind, emit. simpl. rewrite <- app_assoc. reflexivity.
Qed.

(** [/code] with a falsy [code]: 400, nothing else. *)
Lemma handleRequest_no_code srv req w :
  pathname req = Some "/code" ->
  query_truthy (query req !! "code") = false ->
  handleRequest gauth srv req w =
  (Ok tt, mkWorld (backend w) (servers w)
                  (trace w ++ [EvWriteHead 400; EvEnd])).
Proof.
  intros Hp Hq. unfold handleRequest.
  rewrite (bool_decide_eq_true_2 _ Hp), Hq. simpl.
  unfold bind, emit. simpl. rewrite <- app_assoc. reflexivity.
Qed.

(** [/code] with a truthy [code]: 200 and the page first, then the
    exchange; the server is closed when the exchange has succeeded... *)
Lemma handleRequest_code_ok srv req w c client g1 :
  pathname req = Some "/code" ->
  query req !! "code" = Some c ->
  query_truthy (Some c) = true ->
  getCredentials gauth c (backend w) = (Ok client, g1) ->
  handleRequest gauth srv req w =
  (Ok tt,
   mkWorld g1 (<[srv := SrvClosed]> (servers w))
           (trace w ++ [EvWriteHead 200;
                        EvWriteBody "Auth successful! You can close the tab!";
                        EvEnd; EvGetCredentials c; EvClose srv])).
Proof.
  intros Hp Hq Ht Hx. unfold handleRequest.
  rewrite (bool_decide_eq_true_2 _ Hp), Hq, Ht. simpl.
  unfold bind, emit, call, server_close, set_server, bind, emit. simpl.
  rewrite Hx. simpl. rewrite <- !app_assoc. reflexivity.
Qed.

(** ... and is left as it was, with the handler's promise rejected, when
    the exchange throws. *)
Lemma handleRequest_code_failed srv req w c e g1 :
  pathname req = Some "/code" ->
  query req !! "code" = Some c ->
  query_truthy (Some c) = true ->
  getCredentials gauth c (backend w) = (Throw e, g1) ->
  handleRequest gauth srv req w =
  (Throw e,
   mkWorld g1 (servers w)
           (trace w ++ [EvWriteHead 200;
                        EvWriteBody "Auth successful! You can close the tab!";
                        EvEnd; EvGetCredentials c])).
Proof.
  intros Hp Hq Ht Hx. unfold handleRequest.
  rewrite (bool_decide_eq_true_2 _ Hp), Hq, Ht. simpl.
  unfold bind, emit, call. simpl.
  rewrite Hx. simpl. rewrite <- !app_assoc. reflexivity.
Qed.

(** C4, as the code has it: a request to [/code] whose [code] parameter
    is non-empty is answered 200 with the fixed confirmation page and,
    once the exchange of the code has succeeded, the server object is
    closed; a request to any other path is answered 404 and the server is
    left listening. *)
Theorem callback_answers_then_closes srv req w :
  (∀ c client g1,
      pathname req = Some "/code" ->
      query req !! "code" = Some c ->
      query_truthy (Some c) = true ->
      getCredentials gauth c (backend w) = (Ok client, g1) ->
      ∃ w',
        handleRequest gauth srv req w = (Ok tt, w')
        ∧ trace w' = (trace w ++
                      [EvWriteHead 200;
                       EvWriteBody "Auth successful! You can close the tab!";
                       EvEnd; EvGetCredentials c; EvClose srv])%list
        ∧ servers w' = <[srv := SrvClosed]> (servers w))
  ∧ (pathname req ≠ Some "/code" ->
     ∃ w',
       handleRequest gauth srv req w = (Ok tt, w')
       ∧ trace w' = (trace w ++ [EvWriteHead 404; EvEnd])%list
       ∧ servers w' = servers w).
Proof.
  split.
  - intros c client g1 Hp Hq Ht Hx. eexists. split.
    + by eapply handleRequest_code_ok.
    + split; reflexivity.
  - intros Hp. eexists. split.
    + by apply handleRequest_other_path.
    + split; reflexivity.
Qed.

(** C5, as the code has it: a request to [/code] without a usable [code]
    is answered 400 and the server is left listening; an [error]
    parameter changes nothing: the handler does exactly the same with and
    without it, and no flow is resolved. *)
Theorem callback_without_code srv req w :
  pathname req = Some "/code" ->
  query_truthy (query req !! "code") = false ->
  handleRequest gauth srv req w =
  (Ok tt, mkWorld (backend w) (servers w)
                  (trace w ++ [EvWriteHead 400; EvEnd]))
  ∧ (∀ v, handleRequest gauth srv
            (mkRequest (req_method req) (pathname req)
                       (<["error" := v]> (query req))) w
          = handleRequest gauth srv req w).
Proof.
  intros Hp Hq. split.
  - by apply handleRequest_no_code.
  - intros v. rewrite !handleRequest_no_code; try done.
    simpl. by rewrite lookup_insert_ne.
Qed.

End ListenerProperties.

(** ** Where a credential failure ends up *)

Section TraceLog.

Context {G Content : Type} {JS : Engine}.
Variable gauth : Backend G Content.
Variable P : Event -> bool.













End TraceLog.


Section FailureFacts.

Context {G Content : Type} {JS : Engine}.
Variable gauth : Backend G Content.

Implicit Types (w : World G) (name : string) (args : JsValue)
         (req : Request) (srv : nat).



End FailureFacts.

(** ** The expiry test *)

(** The test of [setupOAuth2] in arithmetic. *)
Lemma credentials_expired_spec (tokens : Credentials) (now : Z) :
  credentials_expired tokens now = true
  ↔ ∃ e, expiry_date tokens = Some e ∧ e ≠ 0 ∧ e < now.
Proof.
  unfold credentials_expired. destruct (expiry_date tokens) as [e |].
  - rewrite andb_true_iff, negb_true_iff, Z.eqb_neq, Z.ltb_lt. split.
    + intros [H0 Hlt]. eauto.
    + intros (e' & [= <-] & H0 & Hlt). auto.
  - split; [discriminate | intros (e & [=] & _)].
Qed.

(** C2, as the code has it: the expiry test has no safety margin.  Tokens
    count as expired exactly when [expiry_date] is set, non-zero and
    strictly before now; tokens expiring 30 seconds or 120 seconds from now
    are both not expired. *)
Theorem credentials_expired_no_margin (tokens : Credentials) (now : Z) :
  (credentials_expired tokens now = true
   ↔ ∃ e, expiry_date tokens = Some e ∧ e ≠ 0 ∧ e < now)
  ∧ (expiry_date tokens = Some (now + 30000) ->
     credentials_expired tokens now = false)
  ∧ (expiry_date tokens = Some (now + 120000) ->
     credentials_expired tokens now = false).
Proof.
  split; [apply credentials_expired_spec |].
  split; intros He; apply not_true_is_false;
    rewrite credentials_expired_spec; intros (e & He' & _ & Hlt);
    rewrite He in He'; injection He' as <-; lia.
Qed.

(** ** Refresh *)

Section RefreshProperties.

Context {JS : Engine}.

Import CredentialLayer.

(** A granted refresh whose reply carries no refresh token keeps the
    previous one. *)
Lemma refresh_preserves (ts : Credentials) (provider : string -> RefreshReply)
      (R access : string) (expiry : Z) :
  refresh_token ts = Some R ->
  provider R = RefreshGranted access expiry None ->
  refresh ts provider =
  Ok (mkCredentials (Some access) (Some R) (Some expiry) (scope ts)).
Proof. intros HR Hp. unfold refresh. by rewrite HR, Hp. Qed.

(** C8: a stored record with refresh token [R], found expired at time of
    use, is refreshed; when the provider's reply omits a new refresh
    token, the record written back by [setupOAuth2] still holds [R] (and
    the new access token). *)
Theorem refresh_keeps_refresh_token
        (w : World State) (u R access : string) (expiry : Z)
        (ts : Credentials) :
  (∃ a, a ∈ accounts (backend w) ∧ email a = u) ->
  store (backend w) !! u = Some ts ->
  refresh_token ts = Some R ->
  spec_expired safetyMargin ts (now (backend w)) = true ->
  refresh_reply (backend w) R = RefreshGranted access expiry None ->
  ∃ w' ts',
    setupOAuth2 service (JsString u) w = (Ok tt, w')
    ∧ store (backend w') !! u = Some ts'
    ∧ refresh_token ts' = Some R
    ∧ access_token ts' = Some access.
Proof.
  intros Hin Hst HR Hexp Hreply.
  destruct (existsb_email_true u _ Hin) as [Hex Hlen].
  destruct w as [g srvs tr]. simpl in *.
  unfold setupOAuth2, bind, call, Date_now, userInfo_of, logger_error, emit.
  simpl. rewrite Hlen, Hex. simpl. rewrite Hst. simpl.
  assert (Hinfo : ∀ g', now g' = now g -> refresh_reply g' = refresh_reply g ->
                        getUserInfo (mkClient ts) g' =
                        ((Ok JsNull,
                          mkClient (mkCredentials (Some access) (Some R)
                                                  (Some expiry) (scope ts))),
                         g')).
  { intros g' Hnow Hrr. unfold getUserInfo. simpl. rewrite Hnow, Hexp, Hrr.
    by rewrite (refresh_preserves ts _ R access expiry HR Hreply). }
  destruct (credentials_expired ts (now g)); simpl;
    rewrite Hinfo by reflexivity; simpl;
    eexists _, _; (split; [reflexivity |]); simpl;
    rewrite lookup_insert_eq; auto.
Qed.

End RefreshProperties.

(** * The properties on concrete worlds *)

Section Examples.

Import CredentialLayer Fixtures.

(** *** Where the code departs from the specification *)

(** C1: in a world where [a@x.com] is configured and has no stored
    record, the protected call [gmail_query_emails] completes with the
    tool's content although no code was exchanged and no record written:
    the listener it started is still waiting when the call returns. *)
Lemma first_use_does_not_block_counterexample :
  let '(r, w') :=
    callTool service "gmail_query_emails" (args_for "a@x.com") fresh in
  store (backend fresh) !! "a@x.com" = None
  ∧ r = Ok (mkResult false (ToolContent "done"))
  ∧ existsb tool_event (trace w') = true
  ∧ existsb exchange_event (trace w') = false
  ∧ existsb store_event (trace w') = false
  ∧ servers w' = [SrvListening 4100]
  ∧ store (backend w') !! "a@x.com" = None.
Proof. vm_compute. repeat split. Qed.

(** C2: tokens that expire 30 seconds from now are expired under the
    60-second margin of the specification, and not expired for the
    server. *)
Lemma expiry_margin_counterexample :
  let tokens := mkCredentials (Some "access-1") (Some "R")
                              (Some (t0 + 30000)) None in
  spec_expired safetyMargin tokens t0 = true
  ∧ credentials_expired tokens t0 = false.
Proof. vm_compute. split; reflexivity. Qed.

(** C3: the empty string is the email of no account, and a call with
    [user_id: ""] is answered with the missing-[user_id] error, not with
    the failed account validation. *)
Lemma empty_user_id_counterexample :
  existsb (fun a => strict_eq_string (email a) (JsString "")) two_accounts
  = false
  ∧ callTool service "gmail_query_emails" (args_for "") fresh =
    (Ok (mkResult true
           (ErrorPayload "user_id argument is missing in dictionary")),
     fresh).
Proof. split; reflexivity. Qed.

(** C4: [GET /code?code=] carries a [code] parameter and is answered 400,
    the listener left open; and [GET /code?code=BAD], whose exchange the
    provider refuses, is answered 200 and the listener is left open
    too. *)
Lemma callback_close_counterexample :
  (let '(r, w') :=
     handleRequest service 0
       (code_request (<["code" := QStr ""]> ∅)) pending in
   r = Ok tt
   ∧ trace w' = [EvWriteHead 400; EvEnd]
   ∧ servers w' = [SrvListening 4100])
  ∧ (let '(r, w') :=
       handleRequest service 0
         (code_request (<["code" := QStr "BAD"]> ∅)) pending in
     r = Throw (mkError "InvalidGrantError")
     ∧ trace w' = [EvWriteHead 200;
                   EvWriteBody "Auth successful! You can close the tab!";
                   EvEnd; EvGetCredentials (QStr "BAD")]
     ∧ servers w' = [SrvListening 4100]).
Proof. vm_compute. repeat split. Qed.

(** C5: [GET /code?error=access_denied] is answered 400 and that is all:
    the only events are on the response, the listener stays as it was and
    nothing reaches the credential layer, so nothing is resolved. *)
Lemma callback_error_param_counterexample :
  let '(r, w') :=
    handleRequest service 0
      (code_request (<["error" := QStr "access_denied"]> ∅)) pending in
  r = Ok tt
  ∧ trace w' = [EvWriteHead 400; EvEnd]
  ∧ forallb response_event (trace w') = true
  ∧ servers w' = servers pending
  ∧ store (backend w') = store (backend pending).
Proof. vm_compute. repeat split. Qed.

(** C6: two protected calls for two accounts without records, one after
    the other.  The second one finds a listener pending and is not
    refused: it returns the tool's content, and two server objects have
    been told to listen on port 4100. *)
Lemma second_flow_counterexample :
  let '(r1, w1) :=
    callTool service "gmail_query_emails" (args_for "a@x.com") fresh in
  let '(r2, w2) :=
    callTool service "gmail_query_emails" (args_for "b@x.com") w1 in
  pending_listeners 4100 w1 = 1%nat
  ∧ r2 = Ok (mkResult false (ToolContent "done"))
  ∧ servers w2 = [SrvListening 4100; SrvListening 4100]
  ∧ pending_listeners 4100 w2 = 2%nat.
Proof. vm_compute. repeat split. Qed.


End Examples.

Section Witnesses.

Import CredentialLayer Fixtures.

Lemma first_use_starts_flow_and_proceeds_witness :
  store (backend fresh) !! "a@x.com" = None
  ∧ callTool service "gmail_query_emails" (args_for "a@x.com") fresh =
    route_guarded service "gmail_query_emails" (args_for "a@x.com")
      (mkWorld (backend fresh) [SrvListening 4100]
               [EvGetAccountInfo;
                EvGetStoredCredentials (JsString "a@x.com");
                EvGetAuthorizationUrl (JsString "a@x.com");
                EvSpawn "open"
                  ["https://accounts.google.com/o/oauth2/v2/auth"
                   +:+ "?response_type=code&access_type=offline&state=a@x.com"];
                EvCreateServer 0; EvListen 0 4100]).
Proof.
  split; [reflexivity |].
  apply (first_use_starts_flow_and_proceeds service "gmail_query_emails"
           (<["user_id" := JsString "a@x.com"]> ∅) "a@x.com" fresh
           two_accounts (backend fresh) (backend fresh)
           ("https://accounts.google.com/o/oauth2/v2/auth"
            +:+ "?response_type=code&access_type=offline&state=a@x.com")
           (backend fresh));
    try discriminate; try reflexivity.
  exists (acct "a@x.com"). split; [constructor | reflexivity].
Defined.

Lemma unknown_account_rejected_witness :
  (∀ a, a ∈ two_accounts -> email a ≠ "zz@x.com")
  ∧ ∃ new,
      callTool service "gmail_query_emails" (args_for "zz@x.com") fresh =
      (Ok (mkResult true
             (ErrorPayload
                ("OAuth2 setup failed: "
                 +:+ "Account for email: " +:+ "zz@x.com"
                 +:+ " not specified in .gauth.json"))),
       mkWorld (backend fresh) (servers fresh) (trace fresh ++ new))
      ∧ new = [EvGetAccountInfo; EvLogError "OAuth2 setup failed:"]
      ∧ existsb contacts_provider new = false.
Proof.
  assert (Hnone : ∀ a, a ∈ two_accounts -> email a ≠ "zz@x.com").
  { intros a Ha. unfold two_accounts in Ha.
    repeat (apply elem_of_cons in Ha as [-> | Ha]; [discriminate |]).
    by apply elem_of_nil in Ha. }
  split; [exact Hnone |].
  apply (unknown_account_rejected service "gmail_query_emails"
           (<["user_id" := JsString "zz@x.com"]> ∅) "zz@x.com" fresh
           two_accounts (backend fresh));
    try discriminate; try reflexivity.
  exact Hnone.
Defined.

Lemma second_flow_opens_second_listener_witness :
  (0 < pending_listeners 4100 pending)%nat
  ∧ ∃ w', startAuthFlow service (JsString "b@x.com") pending = (Ok tt, w')
          ∧ servers w' = [SrvListening 4100; SrvListening 4100]
          ∧ pending_listeners 4100 w' = 2%nat.
Proof.
  assert (Hp : (0 < pending_listeners 4100 pending)%nat) by (vm_compute; lia).
  split; [exact Hp |].
  apply (second_flow_opens_second_listener service (JsString "b@x.com") pending
           ("https://accounts.google.com/o/oauth2/v2/auth"
            +:+ "?response_type=code&access_type=offline&state=b@x.com")
           (backend pending) Hp).
  reflexivity.
Defined.


Lemma missing_user_id_rejected_witness :
  (∅ : gmap string JsValue) !! "user_id" = None
  ∧ callTool service "gmail_query_emails" (JsObject ∅) fresh =
    (Ok (mkResult true
           (ErrorPayload "user_id argument is missing in dictionary")),
     fresh).
Proof.
  split; [reflexivity |].
  apply (missing_user_id_rejected service "gmail_query_emails" ∅ fresh);
    try discriminate; reflexivity.
Defined.

Lemma callback_answers_then_closes_witness :
  (∃ w', handleRequest service 0
           (code_request (<["code" := QStr "ABC"]> ∅)) pending = (Ok tt, w')
         ∧ trace w' = [EvWriteHead 200;
                       EvWriteBody "Auth successful! You can close the tab!";
                       EvEnd; EvGetCredentials (QStr "ABC"); EvClose 0]
         ∧ servers w' = [SrvClosed])
  ∧ (∃ w', handleRequest service 0
             (mkRequest "GET" (Some "/favicon.ico") ∅) pending = (Ok tt, w')
           ∧ trace w' = [EvWriteHead 404; EvEnd]
           ∧ servers w' = [SrvListening 4100]).
Proof.
  split.
  - apply (proj1 (callback_answers_then_closes service 0
                    (code_request (<["code" := QStr "ABC"]> ∅)) pending)
                 (QStr "ABC") (mkClient tokens_new)
                 (set_store (backend pending) (<["a@x.com" := tokens_new]> ∅)));
      reflexivity.
  - apply (proj2 (callback_answers_then_closes service 0
                    (mkRequest "GET" (Some "/favicon.ico") ∅) pending)).
    discriminate.
Defined.

Lemma callback_without_code_witness :
  query_truthy (query (code_request ∅) !! "code") = false
  ∧ handleRequest service 0 (code_request ∅) pending =
    (Ok tt, mkWorld (backend pending) [SrvListening 4100]
                    [EvWriteHead 400; EvEnd])
  ∧ handleRequest service 0
      (code_request (<["error" := QStr "access_denied"]> ∅)) pending
    = handleRequest service 0 (code_request ∅) pending.
Proof.
  split; [reflexivity |].
  destruct (callback_without_code service 0 (code_request ∅) pending)
    as [Hrun Hsame]; [reflexivity | reflexivity |].
  split; [exact Hrun | exact (Hsame (QStr "access_denied"))].
Defined.

Lemma credentials_expired_no_margin_witness :
  credentials_expired
    (mkCredentials (Some "access-1") (Some "R") (Some (t0 + 30000)) None) t0
  = false
  ∧ credentials_expired tokens_old t0 = true.
Proof.
  split.
  - apply (proj1 (proj2 (credentials_expired_no_margin
                           (mkCredentials (Some "access-1") (Some "R")
                                          (Some (t0 + 30000)) None) t0))).
    reflexivity.
  - apply (proj1 (credentials_expired_no_margin tokens_old t0)).
    exists (t0 - 1000).
    split; [reflexivity | split; [intros H; discriminate H | reflexivity]].
Defined.

Lemma refresh_keeps_refresh_token_witness :
  store (backend stored) !! "a@x.com" = Some tokens_old
  ∧ refresh_token tokens_old = Some "R"
  ∧ refresh_reply (backend stored) "R"
    = RefreshGranted "access-2" (t0 + 3600000) None
  ∧ ∃ w' ts',
      setupOAuth2 service (JsString "a@x.com") stored = (Ok tt, w')
      ∧ store (backend w') !! "a@x.com" = Some ts'
      ∧ refresh_token ts' = Some "R"
      ∧ access_token ts' = Some "access-2".
Proof.
  split; [reflexivity |]. split; [reflexivity |]. split; [reflexivity |].
  apply (refresh_keeps_refresh_token stored "a@x.com" "R" "access-2"
           (t0 + 3600000) tokens_old); try reflexivity.
  exists (acct "a@x.com"). split; [constructor | reflexivity].
Defined.

End Witnesses.

(** * Properties of the tool code *)

Local Open Scope list_scope.

(** ** Base64url normalisation *)

Section Base64Facts.

Import Base64Url.

Lemma length_append (a b : string) :
  String.length (a +:+ b) = (String.length a + String.length b)%nat.
Proof.
  induction a as [| c a IH]; [reflexivity |].
  change (String c a +:+ b) with (String c (a +:+ b)). simpl. by rewrite IH.
Qed.

Lemma length_replaceAll (c d : ascii) (s : string) :
  String.length (replaceAll c d s) = String.length s.
Proof. induction s as [| a s IH]; simpl; [reflexivity | by rewrite IH]. Qed.

Lemma length_toStandard (s : string) :
  String.length (toStandard s) = String.length s.
Proof. unfold toStandard. by rewrite !length_replaceAll. Qed.

Lemma length_repeat_eq (n : nat) : String.length (repeat_eq n) = n.
Proof. induction n as [| n IH]; simpl; [reflexivity | by rewrite IH]. Qed.

Lemma append_empty_r (s : string) : s +:+ "" = s.
Proof.
  induction s as [| a s IH]; [reflexivity |].
  change (String a s +:+ "") with (String a (s +:+ "")). by rewrite IH.
Qed.

(** A string without the character is left alone by the replacement. *)
Lemma replaceAll_absent (c d : ascii) (s : string) :
  ¬ In c (String.list_ascii_of_string s) -> replaceAll c d s = s.
Proof.
  induction s as [| a s IH]; simpl; [reflexivity |].
  intros Hnot. destruct (Ascii.eqb_spec a c) as [-> | Hne].
  - exfalso. apply Hnot. by left.
  - f_equal. apply IH. intros Hin. apply Hnot. by right.
Qed.

(** After the replacement the character is gone, unless it is put back. *)
Lemma replaceAll_removes (c d : ascii) (s : string) :
  c ≠ d -> ¬ In c (String.list_ascii_of_string (replaceAll c d s)).
Proof.
  intros Hcd. induction s as [| a s IH]; simpl; [tauto |].
  intros [Heq | Hin]; [| by apply IH].
  destruct (Ascii.eqb_spec a c) as [-> | Hne]; congruence.
Qed.

(** The replacement only ever writes [d]. *)
Lemma replaceAll_keeps (c d x : ascii) (s : string) :
  x ≠ d -> ¬ In x (String.list_ascii_of_string s) ->
  ¬ In x (String.list_ascii_of_string (replaceAll c d s)).
Proof.
  intros Hxd. induction s as [| a s IH]; simpl; [tauto |].
  intros Hnot [Heq | Hin].
  - destruct (Ascii.eqb_spec a c); [congruence | apply Hnot; by left].
  - apply IH; [| exact Hin]. intros H. apply Hnot. by right.
Qed.

Lemma in_append (x : ascii) (a b : string) :
  In x (String.list_ascii_of_string (a +:+ b))
  ↔ In x (String.list_ascii_of_string a) ∨ In x (String.list_ascii_of_string b).
Proof.
  induction a as [| c a IH]; [simpl; tauto |].
  change (String c a +:+ b) with (String c (a +:+ b)). simpl. rewrite IH. tauto.
Qed.

Lemma in_repeat_eq (x : ascii) (n : nat) :
  In x (String.list_ascii_of_string (repeat_eq n)) -> x = "="%char.
Proof. induction n as [| n IH]; simpl; [tauto | intros [<- | H]; auto]. Qed.

Lemma toStandard_clean (s : string) :
  ¬ In "-"%char (String.list_ascii_of_string (toStandard s))
  ∧ ¬ In "_"%char (String.list_ascii_of_string (toStandard s)).
Proof.
  unfold toStandard. split.
  - apply replaceAll_keeps; [discriminate |].
    apply replaceAll_removes. discriminate.
  - apply replaceAll_removes. discriminate.
Qed.

Lemma toStandard_id (s : string) :
  ¬ In "-"%char (String.list_ascii_of_string s) ->
  ¬ In "_"%char (String.list_ascii_of_string s) ->
  toStandard s = s.
Proof.
  intros Hm Hu. unfold toStandard.
  rewrite (replaceAll_absent "-" "+" s Hm). by apply replaceAll_absent.
Qed.

Lemma padding_aligned (s : string) :
  (String.length s mod 4 = 0)%nat -> padding s = "".
Proof. intros H. unfold padding. by rewrite H. Qed.

Lemma padded_aligned (s : string) :
  (String.length (padded s) mod 4 = 0)%nat.
Proof.
  unfold padded, padding.
  rewrite length_append, length_repeat_eq.
  set (n := String.length (toStandard s)).
  assert (Hk : ∃ k, (n + (4 - n mod 4) mod 4 = k * 4)%nat).
  { pose proof (Nat.mod_upper_bound n 4 ltac:(lia)) as Hlt.
    pose proof (Nat.div_mod_eq n 4) as Hn.
    revert Hlt Hn. generalize (n / 4)%nat (n mod 4)%nat. intros q r Hlt Hn.
    destruct r as [| [| [| [| r]]]]; try lia;
      [exists q | exists (S q) | exists (S q) | exists (S q)];
      simpl; lia. }
  destruct Hk as [k ->]. apply Nat.Div0.mod_mul.
Qed.

(** X1: the text handed to the base64 decoder by [decodeBase64Data] and
    [decodeBase64UrlString] has a length that is a multiple of 4; it is
    the input with at most three characters added, all of them [=]. *)
Theorem padded_length (data : string) :
  (String.length (padded data) mod 4 = 0)%nat
  ∧ (String.length data <= String.length (padded data) < String.length data + 4)%nat
  ∧ ∃ n, (n < 4)%nat ∧ padded data = toStandard data +:+ repeat_eq n.
Proof.
  split; [apply padded_aligned |].
  unfold padded, padding. rewrite length_append, length_repeat_eq, length_toStandard.
  pose proof (Nat.mod_upper_bound (4 - String.length data mod 4) 4 ltac:(lia)).
  split; [lia |]. exists ((4 - String.length data mod 4) mod 4)%nat.
  split; [lia | reflexivity].
Qed.

(** X2: no [-] and no [_] reaches the base64 decoder, and what is already
    standard base64 with a length that is a multiple of 4 reaches it
    unchanged. *)
Theorem padded_alphabet (data : string) :
  (¬ In "-"%char (String.list_ascii_of_string (padded data))
   ∧ ¬ In "_"%char (String.list_ascii_of_string (padded data)))
  ∧ (¬ In "-"%char (String.list_ascii_of_string data) ->
     ¬ In "_"%char (String.list_ascii_of_string data) ->
     (String.length data mod 4 = 0)%nat ->
     padded data = data).
Proof.
  split.
  - destruct (toStandard_clean data) as [Hm Hu]. unfold padded.
    split; rewrite in_append; intros [H | H]; auto;
      apply in_repeat_eq in H; discriminate.
  - intros Hm Hu Hlen. unfold padded.
    rewrite (toStandard_id data Hm Hu), (padding_aligned data Hlen).
    apply append_empty_r.
Qed.

(** X3: the normalisation is idempotent: normalised text is a fixed
    point, so decoding text that was already normalised gives the same
    bytes. *)
Theorem padded_idempotent (data : string) :
  padded (padded data) = padded data.
Proof.
  destruct (toStandard_clean data) as [Hm Hu].
  assert (Hclean : ∀ x, x ≠ "="%char ->
                        ¬ In x (String.list_ascii_of_string (toStandard data)) ->
                        ¬ In x (String.list_ascii_of_string (padded data))).
  { intros x Hx Hnot. unfold padded. rewrite in_append. intros [H | H]; auto.
    apply in_repeat_eq in H. contradiction. }
  unfold padded at 1.
  rewrite (toStandard_id (padded data));
    [| apply Hclean; [discriminate | exact Hm]
     | apply Hclean; [discriminate | exact Hu]].
  rewrite (padding_aligned _ (padded_aligned data)).
  apply append_empty_r.
Qed.

End Base64Facts.

(** ** Header and text extraction *)

Section ExtractFacts.

Import MailExtract.

Variable toLowerCase : string -> string.
Variable decode : string -> string.

Lemma extractEmailHeaders_snoc (hs : list Header) (h : Header) :
  extractEmailHeaders toLowerCase (hs ++ [h])%list
  = keep_header toLowerCase (extractEmailHeaders toLowerCase hs) h.
Proof. unfold extractEmailHeaders. by rewrite fold_left_app. Qed.

Lemma usable_header_inv (h : Header) :
  usable_header h = true ->
  ∃ n v, header_name h = Some n ∧ header_value h = Some v ∧ n ≠ "" ∧ v ≠ "".
Proof.
  unfold usable_header, str_truthy. intros H.
  apply andb_true_iff in H as [Hn Hv].
  destruct (header_name h) as [n |]; [| discriminate].
  destruct (header_value h) as [v |]; [| discriminate].
  apply negb_true_iff, String.eqb_neq in Hn, Hv.
  exists n, v. auto.
Qed.

(** X4: whatever [extractEmailHeaders] returns under a key comes from a
    header of the message: the key is one of the seven important names,
    it is the lower-cased name of a header whose name and value are both
    non-empty, and the value is that header's value. *)
Theorem extractEmailHeaders_sound (hs : list Header) (k v : string) :
  extractEmailHeaders toLowerCase hs !! k = Some v ->
  k ∈ importantHeaders
  ∧ ∃ h n, h ∈ hs ∧ header_name h = Some n ∧ n ≠ "" ∧ toLowerCase n = k
           ∧ header_value h = Some v ∧ v ≠ "".
Proof.
  induction hs as [| h hs IH] using rev_ind.
  - unfold extractEmailHeaders. simpl. by rewrite lookup_empty.
  - rewrite extractEmailHeaders_snoc. unfold keep_header.
    fold (usable_header h).
    assert (Hold : extractEmailHeaders toLowerCase hs !! k = Some v ->
                   k ∈ importantHeaders
                   ∧ ∃ h0 n, h0 ∈ (hs ++ [h])%list ∧ header_name h0 = Some n ∧ n ≠ ""
                             ∧ toLowerCase n = k
                             ∧ header_value h0 = Some v ∧ v ≠ "").
    { intros H. destruct (IH H) as (Hk & h0 & n & Hin & Hrest).
      split; [exact Hk |]. exists h0, n. split; [| exact Hrest].
      apply elem_of_app. by left. }
    destruct (usable_header h) eqn:Hu; [| exact Hold].
    destruct (usable_header_inv h Hu) as (n & x & Hn & Hx & Hn0 & Hx0).
    rewrite Hn, Hx. simpl.
    case_bool_decide as Himp; [| exact Hold].
    destruct (decide (toLowerCase n = k)) as [<- | Hne].
    + rewrite lookup_insert_eq. intros [= <-].
      split; [exact Himp |]. exists h, n.
      split; [apply elem_of_app; right; by apply list_elem_of_singleton |].
      auto.
    + rewrite lookup_insert_ne by exact Hne. exact Hold.
Qed.

(** X5: when several headers share an important name, the last one wins:
    the value under the name is that of the last usable header carrying
    it. *)
Theorem extractEmailHeaders_last_wins
        (pre post : list Header) (h : Header) (n v : string) :
  usable_header h = true ->
  header_name h = Some n ->
  header_value h = Some v ->
  toLowerCase n ∈ importantHeaders ->
  (∀ h' n', h' ∈ post -> usable_header h' = true ->
            header_name h' = Some n' -> toLowerCase n' ≠ toLowerCase n) ->
  extractEmailHeaders toLowerCase (pre ++ h :: post)%list !! toLowerCase n = Some v.
Proof.
  intros Hu Hn Hv Himp.
  induction post as [| x post IH] using rev_ind; intros Hlater.
  - rewrite extractEmailHeaders_snoc. unfold keep_header.
    fold (usable_header h). rewrite Hu, Hn, Hv. simpl.
    rewrite (bool_decide_eq_true_2 _ Himp). apply lookup_insert_eq.
  - replace (pre ++ h :: post ++ [x])%list with ((pre ++ h :: post) ++ [x])%list
      by (by rewrite <- app_assoc).
    rewrite extractEmailHeaders_snoc. unfold keep_header.
    fold (usable_header x).
    assert (Hprev : extractEmailHeaders toLowerCase (pre ++ h :: post)%list
                      !! toLowerCase n = Some v).
    { apply IH. intros h' n' Hin. apply Hlater, elem_of_app. by left. }
    destruct (usable_header x) eqn:Hux; [| exact Hprev].
    destruct (usable_header_inv x Hux) as (m & y & Hm & Hy & _ & _).
    rewrite Hm, Hy. simpl. case_bool_decide; [| exact Hprev].
    rewrite lookup_insert_ne; [exact Hprev |].
    apply (Hlater x m); [| exact Hux | exact Hm].
    apply elem_of_app. right. by apply list_elem_of_singleton.
Qed.

(** The body of [extractEmailText], with the loop by name. *)
Lemma extractEmailText_unfold (p : MessagePart) :
  extractEmailText decode p =
  if bool_decide (mimeType p = Some "text/plain") && str_truthy (body_data p)
  then decode (default "" (body_data p))
  else if bool_decide (mimeType p = Some "text/html") && str_truthy (body_data p)
  then decode (default "" (body_data p))
  else match parts p with
       | Some ps =>
           match text_of decode (List.find (is_mime "text/plain") ps) with
           | Some text => text
           | None =>
               match text_of decode (List.find (is_mime "text/html") ps) with
               | Some text => text
               | None => nested_text decode ps
               end
           end
       | None => ""
       end.
Proof. destruct p. reflexivity. Qed.

(** Induction on a message part and the parts under it. *)
Lemma part_ind (P : MessagePart -> Prop) :
  (∀ p, (∀ ps, parts p = Some ps -> Forall P ps) -> P p) ->
  ∀ p, P p.
Proof.
  intros Hstep. fix IH 1. intros p. apply Hstep.
  destruct p as [a b c d e f [ps |]]; simpl; intros ps' [=]. subst ps'.
  induction ps as [| q ps IHps]; constructor; [apply IH | exact IHps].
Qed.

Lemma text_of_found (m : string) (ps : list MessagePart) (t : string) :
  text_of decode (List.find (is_mime m) ps) = Some t ->
  ∃ q, q ∈ ps ∧ mimeType q = Some m ∧ str_truthy (body_data q) = true
       ∧ t = decode (default "" (body_data q)).
Proof.
  unfold text_of. destruct (List.find (is_mime m) ps) as [q |] eqn:Hf;
    [| discriminate].
  destruct (str_truthy (body_data q)) eqn:Hd; [| discriminate].
  intros [= <-]. apply List.find_some in Hf as [Hin Hm].
  exists q. split; [by apply list_elem_of_In |].
  unfold is_mime in Hm. apply bool_decide_eq_true in Hm. auto.
Qed.

(** X6: [extractEmailText] returns either the empty string or the decoded
    body of a part of the message, at any depth, whose type is
    [text/plain] or [text/html] and whose [body.data] is non-empty; it
    never makes text up and never decodes any other kind of part. *)
Theorem extractEmailText_sound (p : MessagePart) :
  extractEmailText decode p = ""
  ∨ ∃ q, part_within q p ∧ text_part q
         ∧ extractEmailText decode p = decode (default "" (body_data q)).
Proof.
  induction p as [p IH] using part_ind.
  rewrite extractEmailText_unfold.
  destruct (bool_decide (mimeType p = Some "text/plain")
            && str_truthy (body_data p)) eqn:Hplain.
  { apply andb_true_iff in Hplain as [Hm Hd]. apply bool_decide_eq_true in Hm.
    right. exists p. split; [constructor |]. split; [| reflexivity].
    split; [by left | exact Hd]. }
  destruct (bool_decide (mimeType p = Some "text/html")
            && str_truthy (body_data p)) eqn:Hhtml.
  { apply andb_true_iff in Hhtml as [Hm Hd]. apply bool_decide_eq_true in Hm.
    right. exists p. split; [constructor |]. split; [| reflexivity].
    split; [by right | exact Hd]. }
  destruct (parts p) as [ps |] eqn:Hps; [| by left].
  specialize (IH ps eq_refl).
  destruct (text_of decode (List.find (is_mime "text/plain") ps)) as [t |] eqn:Ht.
  { apply text_of_found in Ht as (q & Hin & Hm & Hd & ->).
    right. exists q. split; [by eapply within_parts; [| | constructor] |].
    split; [| reflexivity]. split; [by left | exact Hd]. }
  destruct (text_of decode (List.find (is_mime "text/html") ps)) as [t |] eqn:Hh.
  { apply text_of_found in Hh as (q & Hin & Hm & Hd & ->).
    right. exists q. split; [by eapply within_parts; [| | constructor] |].
    split; [| reflexivity]. split; [by right | exact Hd]. }
  clear Ht Hh.
  assert (Hloop : ∀ l, Forall (λ r, extractEmailText decode r = ""
                                   ∨ ∃ q, part_within q r ∧ text_part q
                                          ∧ extractEmailText decode r
                                            = decode (default "" (body_data q))) l ->
                       (∀ r, r ∈ l -> r ∈ ps) ->
                       nested_text decode l = ""
                       ∨ ∃ q, part_within q p ∧ text_part q
                              ∧ nested_text decode l
                                = decode (default "" (body_data q))).
  { induction l as [| r l IHl]; intros Hall Hsub; [by left |].
    apply Forall_cons in Hall as [Hr Hl]. simpl.
    assert (Hrest := IHl Hl (λ x Hx, Hsub x (list_elem_of_further _ _ _ Hx))).
    destruct (parts r); [| exact Hrest].
    destruct (String.eqb_spec (extractEmailText decode r) "") as [He | Hne];
      simpl; [exact Hrest |].
    destruct Hr as [He | (q & Hq & Htext & Heq)]; [contradiction |].
    right. exists q. split; [| by split].
    eapply within_parts; [exact Hps | | exact Hq].
    apply Hsub. by left. }
  apply Hloop; [exact IH | auto].
Qed.

(** X7: in a multipart message that is not itself a text part, the first
    [text/plain] direct part decides: with a non-empty body its text is
    returned, whatever [text/html] parts there are and wherever they
    stand; with an empty body the other [text/plain] parts are not
    looked at, and the first [text/html] part with a body is returned
    instead. *)
Theorem extractEmailText_prefers_plain
        (p : MessagePart) (ps : list MessagePart) (tp : MessagePart) :
  ¬ text_part p ->
  parts p = Some ps ->
  List.find (is_mime "text/plain") ps = Some tp ->
  (str_truthy (body_data tp) = true ->
   extractEmailText decode p = decode (default "" (body_data tp)))
  ∧ (str_truthy (body_data tp) = false ->
     ∀ hp, List.find (is_mime "text/html") ps = Some hp ->
           str_truthy (body_data hp) = true ->
           extractEmailText decode p = decode (default "" (body_data hp))).
Proof.
  intros Hnot Hps Hfind.
  assert (Htop1 : bool_decide (mimeType p = Some "text/plain")
                  && str_truthy (body_data p) = false).
  { apply not_true_is_false. intros H. apply andb_true_iff in H as [Hm Hd].
    apply bool_decide_eq_true in Hm. apply Hnot. split; [by left | exact Hd]. }
  assert (Htop2 : bool_decide (mimeType p = Some "text/html")
                  && str_truthy (body_data p) = false).
  { apply not_true_is_false. intros H. apply andb_true_iff in H as [Hm Hd].
    apply bool_decide_eq_true in Hm. apply Hnot. split; [by right | exact Hd]. }
  rewrite extractEmailText_unfold, Htop1, Htop2, Hps. unfold text_of at 1.
  rewrite Hfind. split.
  - intros Hd. by rewrite Hd.
  - intros Hd hp Hh Hhd. unfold text_of. by rewrite Hd, Hh, Hhd.
Qed.





End ExtractFacts.

(** ** The tool methods *)

(** *** Which requests a method can send *)

Section RequestLog.

Context {G : Type} {JS : Engine}.

Lemma only_sends_ret {A} P (a : A) : only_sends (G:=G) P (ret a).
Proof.
  intros s r s' [= <- <-]. exists []. by rewrite app_nil_r.
Qed.

Lemma only_sends_throw {A} P (msg : string) :
  only_sends (G:=G) (A:=A) P (throw msg).
Proof.
  intros s r s' [= <- <-]. exists []. by rewrite app_nil_r.
Qed.

Lemma only_sends_pure {A} P (x : Res A) :
  only_sends (G:=G) P (fun s => (x, s)).
Proof.
  intros s r s' [= <- <-]. exists []. by rewrite app_nil_r.
Qed.

Lemma only_sends_bind {A B} P (m : M (Remote G) A) (k : A -> M (Remote G) B) :
  only_sends P m -> (∀ a, only_sends P (k a)) -> only_sends P (bind m k).
Proof.
  intros Hm Hk s r s'. unfold bind.
  destruct (m s) as [[a | e] s1] eqn:Hrun.
  - intros Hrest.
    destruct (Hm _ _ _ Hrun) as (new1 & E1 & H1).
    destruct (Hk a _ _ _ Hrest) as (new2 & E2 & H2).
    exists (new1 ++ new2). rewrite E2, E1, app_assoc, forallb_app, H1, H2. done.
  - intros [= <- <-]. exact (Hm _ _ _ Hrun).
Qed.

Lemma only_sends_try_catch {A} P (m : M (Remote G) A) (h : Error -> M (Remote G) A) :
  only_sends P m -> (∀ e, only_sends P (h e)) -> only_sends P (try_catch m h).
Proof.
  intros Hm Hh s r s'. unfold try_catch.
  destruct (m s) as [[a | e] s1] eqn:Hrun.
  - intros [= <- <-]. exact (Hm _ _ _ Hrun).
  - intros Hrest.
    destruct (Hm _ _ _ Hrun) as (new1 & E1 & H1).
    destruct (Hh e _ _ _ Hrest) as (new2 & E2 & H2).
    exists (new1 ++ new2). rewrite E2, E1, app_assoc, forallb_app, H1, H2. done.
Qed.

Lemma only_sends_send {A} P (q : ApiRequest)
      (answer : ApiRequest -> G -> Res A * G) :
  P q = true -> only_sends P (send q answer).
Proof.
  intros Hq s r s'. unfold send.
  destruct (answer q (remote_state s)) as [a g']. intros [= <- <-].
  exists [q]. simpl. by rewrite Hq.
Qed.

Lemma only_sends_local {A} P (f : G -> Res A * G) : only_sends P (local f).
Proof.
  intros s r s'. unfold local.
  destruct (f (remote_state s)) as [a g']. intros [= <- <-].
  exists []. by rewrite app_nil_r.
Qed.

Lemma only_sends_require P (b : bool) (what : string) :
  only_sends (G:=G) P (require b what).
Proof.
  unfold require. destruct b; [apply only_sends_ret | apply only_sends_throw].
Qed.

Lemma only_sends_lift {A} P (x : Res A) : only_sends (G:=G) P (lift x).
Proof. apply only_sends_pure. Qed.

Lemma only_sends_array_join P (sep what : string) (v : JsValue) :
  only_sends (G:=G) P (array_join sep what v).
Proof.
  unfold array_join.
  destruct v; first [apply only_sends_lift | apply only_sends_throw].
Qed.

Lemma only_sends_text_of P (v : JsValue) : only_sends (G:=G) P (text_of v).
Proof. apply only_sends_lift. Qed.

Lemma only_sends_field P (data : JsValue) (k : string) :
  only_sends (G:=G) P (field data k).
Proof.
  unfold field. destruct data; first [apply only_sends_ret | apply only_sends_throw].
Qed.

Lemma only_sends_map_items P (view : JsValue -> JsValue)
      (items : option (list JsValue)) :
  only_sends (G:=G) P (map_items view items).
Proof.
  destruct items as [items |]; [| apply only_sends_ret]. simpl.
  induction items as [| item rest IH]; [apply only_sends_ret |].
  assert (Hrest : only_sends (G:=G) P
                    (bind (each_item view rest)
                          (fun views => ret (view item :: views)))).
  { apply only_sends_bind; [exact IH | intros ?; apply only_sends_ret]. }
  destruct item; simpl; first [apply only_sends_throw | exact Hrest].
Qed.

Lemma silent_only_sends {A} (m : M (Remote G) A) :
  only_sends (fun _ => false) m -> silent m.
Proof.
  intros Hm s r s' Hrun. destruct (Hm _ _ _ Hrun) as ([| q new] & -> & Hall).
  - by rewrite app_nil_r.
  - discriminate.
Qed.

End RequestLog.

(** Walks through a method: sequencing, handlers, tests and requests. *)
Ltac walk :=
  repeat first
    [ apply only_sends_ret
    | apply only_sends_throw
    | apply only_sends_pure
    | apply only_sends_require
    | apply only_sends_lift
    | apply only_sends_text_of
    | apply only_sends_field
    | apply only_sends_map_items
    | apply only_sends_array_join
    | apply only_sends_local
    | apply only_sends_send; reflexivity
    | apply only_sends_bind; [| intros ?]
    | apply only_sends_try_catch; [| intros ?]
    | match goal with
      | |- only_sends _ (if ?b then _ else _) => destruct b
      | |- only_sends _ (match ?x with _ => _ end) => destruct x
      end ].

Section MethodFacts.

Context {G Content : Type} {JS : Engine}.
Variable gauth : Backend G Content.
Variable api : Api G.

Implicit Types (args : gmap string JsValue) (s : Remote G).



(** [listAccounts] answers with one JSON item and sends no request. *)
Lemma listAccounts_total s :
  ∃ out s',
    GmailMethods.listAccounts api (getAccountInfo gauth) s
    = (Ok [Json out], s')
    ∧ requests s' = requests s
    ∧ (∀ e g, getAccountInfo gauth (remote_state s) = (Throw e, g) ->
              out = Js.obj [("error",
                             JsString ("Failed to list accounts: "
                                       +:+ message e));
                            ("accounts", JsArray [])]).
Proof.
  unfold GmailMethods.listAccounts, try_catch, bind, local, ret.
  destruct (getAccountInfo gauth (remote_state s)) as [[accounts | e] g];
    simpl.
  - destruct (length _ =? 0)%nat; eexists _, _;
      (split; [reflexivity |]); split; try reflexivity; intros; discriminate.
  - eexists _, _. split; [reflexivity |]. split; [reflexivity |].
    intros e' g' [= <- <-]. reflexivity.
Qed.

Lemma getTools_subset (env : option string) (t : GmailTools.Tool) :
  t ∈ GmailTools.getTools env -> t ∈ GmailTools.allTools.
Proof.
  unfold GmailTools.getTools. intros Ht.
  apply list_elem_of_In, List.filter_In in Ht as [Ht _].
  by apply list_elem_of_In.
Qed.

(** Runs a method on arguments that lack one key, through its tests. *)
Ltac enforce Hm :=
  unfold ToolList.run_tool; simpl;
  unfold GmailMethods.queryEmails, GmailMethods.getEmailById,
    GmailMethods.bulkGetEmails, GmailMethods.createDraft,
    GmailMethods.sendEmail, GmailMethods.deleteDraft, GmailMethods.reply,
    GmailMethods.forward, GmailMethods.getAttachment,
    GmailMethods.bulkSaveAttachments, GmailMethods.archive,
    GmailMethods.bulkArchive, CalendarMethods.listCalendars,
    CalendarMethods.getCalendarEvents, CalendarMethods.createCalendarEvent,
    CalendarMethods.updateCalendarEvent, CalendarMethods.deleteCalendarEvent,
    CalendarMethods.respondToCalendarEvent;
  unfold Js.prop, Js.has_key, CalendarMethods.USER_ID_ARG,
    GmailMethods.USER_ID_ARG, GmailTools.USER_ID_ARG in *;
  simpl; rewrite ?Hm; simpl;
  unfold bind, require, throw, ret;
  repeat (match goal with
          | |- context [truthy ?v] => destruct (truthy v) eqn:?; simpl
          end);
  repeat case_bool_decide; simpl; eauto.

(** X9: the [required] lists of the advertised schemas are enforced:
    for every advertised tool and every key its schema marks as required,
    a call whose arguments lack that key throws from the method's own
    tests, before any request is sent and with the remote state
    untouched. *)
Theorem required_arguments_enforced
        (env : option string) (t : GmailTools.Tool) (k : string)
        (m : gmap string JsValue) s :
  t ∈ ToolList.listTools env ->
  k ∈ GmailTools.required t ->
  m !! k = None ->
  ∃ e, ToolList.run_tool gauth api (GmailTools.name t) (JsObject m) s
       = (Throw e, s).
Proof.
  intros Ht Hk Hm.
  assert (Hall : t ∈ GmailTools.allTools ++ ToolList.calendarTools).
  { unfold ToolList.listTools in Ht.
    apply elem_of_app in Ht as [Ht | Ht]; apply elem_of_app;
      [left; by eapply getTools_subset | by right]. }
  clear Ht. unfold GmailTools.allTools, ToolList.calendarTools in Hall.
  simpl in Hall.
  repeat (apply elem_of_cons in Hall as [-> | Hall]);
    try (by apply elem_of_nil in Hall);
    simpl in Hk;
    repeat (apply elem_of_cons in Hk as [-> | Hk]);
    try (by apply elem_of_nil in Hk);
    enforce Hm.
Qed.

End MethodFacts.

(** ** The Calendar methods *)

Section CalendarFacts.

Context {G : Type} {JS : Engine}.
Variable api : Api G.

Implicit Types (args : gmap string JsValue) (s : Remote G).

Import CalendarMethods.


(** X11: the [timezone] argument of [getCalendarEvents] has no effect:
    with or without it, and whatever its value, the method sends the same
    request and returns the same answer. *)
Theorem getCalendarEvents_ignores_timezone args (v : JsValue) s :
  getCalendarEvents api (<["timezone" := v]> args) s
  = getCalendarEvents api args s.
Proof.
  unfold getCalendarEvents, list_params, maxResults, Js.prop,
    USER_ID_ARG, GmailTools.USER_ID_ARG, CALENDAR_ID_ARG.
  by rewrite !lookup_insert_ne.
Qed.

Lemma forallb_Forall_sendUpdates (u : string) (new : list ApiRequest) :
  forallb (λ q, bool_decide (sendUpdates_of q = Some u)) new = true ->
  Forall (λ q, sendUpdates_of q = Some u) new.
Proof.
  induction new as [| q new IH]; simpl; [constructor |].
  intros [Hq Hnew]%andb_true_iff. apply bool_decide_eq_true in Hq.
  constructor; auto.
Qed.

(** X12: what happens when [send_notifications] is left out differs by
    method: every request of [createCalendarEvent] and of
    [deleteCalendarEvent] then carries [sendUpdates: 'none'], every
    request of [updateCalendarEvent] carries [sendUpdates: 'all']. *)
Theorem notification_defaults args s :
  args !! "send_notifications" = None ->
  (∀ r s', createCalendarEvent api args s = (r, s') ->
           ∃ new, requests s' = requests s ++ new
                  ∧ Forall (λ q, sendUpdates_of q = Some "none") new)
  ∧ (∀ r s', deleteCalendarEvent api args s = (r, s') ->
             ∃ new, requests s' = requests s ++ new
                    ∧ Forall (λ q, sendUpdates_of q = Some "none") new)
  ∧ (∀ r s', updateCalendarEvent api args s = (r, s') ->
             ∃ new, requests s' = requests s ++ new
                    ∧ Forall (λ q, sendUpdates_of q = Some "all") new).
Proof.
  intros Hno.
  assert (Hprop : Js.prop args "send_notifications" = JsUndefined)
    by (unfold Js.prop; by rewrite Hno).
  repeat split; intros r s' Hrun.
  - assert (Hq : only_sends
                   (λ q, bool_decide (sendUpdates_of q = Some "none"))
                   (createCalendarEvent api args)).
    { unfold createCalendarEvent, attendees_of. rewrite Hprop. walk. }
    destruct (Hq _ _ _ Hrun) as (new & Hreq & Hall).
    exists new. split; [exact Hreq | by apply forallb_Forall_sendUpdates].
  - assert (Hq : only_sends
                   (λ q, bool_decide (sendUpdates_of q = Some "none"))
                   (deleteCalendarEvent api args)).
    { unfold deleteCalendarEvent. rewrite Hprop. walk. }
    destruct (Hq _ _ _ Hrun) as (new & Hreq & Hall).
    exists new. split; [exact Hreq | by apply forallb_Forall_sendUpdates].
  - assert (Hq : only_sends
                   (λ q, bool_decide (sendUpdates_of q = Some "all"))
                   (updateCalendarEvent api args)).
    { unfold updateCalendarEvent. rewrite Hprop. walk. }
    destruct (Hq _ _ _ Hrun) as (new & Hreq & Hall).
    exists new. split; [exact Hreq | by apply forallb_Forall_sendUpdates].
Qed.

Lemma missing_keys_spec args (k : string) :
  k ∈ missing_keys args ↔ k ∈ required_keys ∧ args !! k = None.
Proof.
  unfold missing_keys. rewrite list_elem_of_In, List.filter_In,
    <- list_elem_of_In. unfold Js.has_key.
  rewrite negb_true_iff, bool_decide_eq_false, <- eq_None_not_Some.
  reflexivity.
Qed.

(** X13: [createCalendarEvent] tests its three required keys for
    presence, not for a usable value.  When one is absent it throws
    before any request, naming exactly the absent ones; when all three
    are present, whatever they hold, and no [attendees] are given, the
    one request sent is an [events.insert] that carries the arguments as
    they are, in the time zone given or [UTC], to the calendar given or
    [primary]. *)
Theorem createCalendarEvent_tests_presence args s :
  truthy (Js.prop args "user_id") = true ->
  (∀ k, k ∈ missing_keys args ↔ k ∈ required_keys ∧ args !! k = None)
  ∧ ((∃ k, k ∈ required_keys ∧ args !! k = None) ->
     createCalendarEvent api args s
     = (Throw (mkError ("Missing required arguments: "
                        +:+ String.concat ", " (missing_keys args))), s))
  ∧ ((∀ k, k ∈ required_keys -> is_Some (args !! k)) ->
     args !! "attendees" = None ->
     ∃ r s',
       createCalendarEvent api args s = (r, s')
       ∧ requests s'
         = requests s
           ++ [EventsInsert
                 (Js.or (Js.prop args "calendar_id") (JsString "primary"))
                 (Js.obj
                    [("summary", Js.prop args "summary");
                     ("location", Js.prop args "location");
                     ("description", Js.prop args "description");
                     ("start",
                      Js.obj [("dateTime", Js.prop args "start_time");
                              ("timeZone",
                               Js.or (Js.prop args "timezone")
                                     (JsString "UTC"))]);
                     ("end",
                      Js.obj [("dateTime", Js.prop args "end_time");
                              ("timeZone",
                               Js.or (Js.prop args "timezone")
                                     (JsString "UTC"))]);
                     ("attendees", JsUndefined)])
                 (sendUpdates_if_truthy (Js.prop args "send_notifications"))]).
Proof.
  intros Hu. split; [apply missing_keys_spec |].
  unfold createCalendarEvent. unfold bind at 1. unfold require.
  unfold USER_ID_ARG, GmailTools.USER_ID_ARG. rewrite Hu.
  unfold ret at 1. cbv beta iota.
  split.
  - intros (k & Hk & Hnone).
    assert (Hall : forallb (λ key, Js.has_key key args) required_keys = false).
    { apply not_true_is_false. rewrite forallb_forall.
      intros Hall. specialize (Hall k). rewrite <- list_elem_of_In in Hall.
      specialize (Hall Hk). unfold Js.has_key in Hall.
      apply bool_decide_eq_true in Hall. rewrite Hnone in Hall.
      by destruct Hall. }
    rewrite Hall. reflexivity.
  - intros Hall Hatt.
    assert (Hyes : forallb (λ key, Js.has_key key args) required_keys = true).
    { apply forallb_forall. intros k Hk. apply bool_decide_eq_true.
      apply Hall. by apply list_elem_of_In. }
    rewrite Hyes. cbv beta iota.
    assert (Hnone : Js.prop args "attendees" = JsUndefined)
      by (unfold Js.prop; by rewrite Hatt).
    rewrite Hnone.
    unfold attendees_of, bind, ret, send, CALENDAR_ID_ARG.
    change (negb true) with false. cbv beta iota.
    destruct (reply_json api _ (remote_state s)) as [[data | e] g'];
      eexists _, _; split; reflexivity.
Qed.


Lemma bind_ret_l {S A B} (a : A) (k : A -> M S B) (x : S) :
  bind (ret a) k x = k a x.
Proof. reflexivity. Qed.

(** A [try] whose handler returns does not throw. *)
Lemma try_catch_handled {S A} (m : M S A) (h : Error -> M S A) (x : S) :
  (∀ e (y : S), ∃ out (z : S), h e y = (Ok out, z)) ->
  ∃ out (z : S), try_catch m h x = (Ok out, z).
Proof.
  intros Hh. unfold try_catch.
  destruct (m x) as [[a | e] y]; [eauto | apply Hh].
Qed.

Lemma valid_response_inv (v : JsValue) :
  valid_response v = true ->
  ∃ r, v = JsString r ∧ truthy v = true.
Proof.
  destruct v; simpl; try discriminate. intros H.
  apply bool_decide_eq_true in H. exists s. split; [reflexivity |].
  repeat (apply elem_of_cons in H as [-> | H]); try reflexivity.
  by apply elem_of_nil in H.
Qed.

(** X15: once their argument tests have passed, [updateCalendarEvent],
    [deleteCalendarEvent] and [respondToCalendarEvent] never throw: every
    failure of the Calendar API is caught and comes back as ordinary
    content. *)
Theorem calendar_changes_never_throw args s :
  truthy (Js.prop args "user_id") = true ->
  truthy (Js.prop args "event_id") = true ->
  (∃ out s', updateCalendarEvent api args s = (Ok out, s'))
  ∧ (∃ out s', deleteCalendarEvent api args s = (Ok out, s'))
  ∧ (valid_response (Js.prop args "response") = true ->
     ∃ out s', respondToCalendarEvent api args s = (Ok out, s')).
Proof.
  intros Hu He. repeat split.
  - unfold updateCalendarEvent, bind, require, try_catch, send, ret.
    unfold USER_ID_ARG, GmailTools.USER_ID_ARG. rewrite Hu, He.
    cbv beta iota.
    destruct (reply_json api _ (remote_state s)) as [[data | e] g']; eauto.
  - unfold deleteCalendarEvent, bind, require, try_catch, send, ret.
    unfold USER_ID_ARG, GmailTools.USER_ID_ARG. rewrite Hu, He.
    cbv beta iota.
    destruct (reply_unit api _ (remote_state s)) as [[[] | e] g']; eauto.
  - intros Hv. destruct (valid_response_inv _ Hv) as (answer & Hr & Ht).
    unfold respondToCalendarEvent, require.
    unfold USER_ID_ARG, GmailTools.USER_ID_ARG. rewrite Hu, He, Hv, Ht.
    change (negb true || negb true) with false. cbv beta iota.
    rewrite !bind_ret_l. apply try_catch_handled.
    intros e s1. unfold ret. eauto.
Qed.

(** X16: [respondToCalendarEvent] touches nothing but the caller's own
    answer: the attendee list it sends back has the same people in the
    same order, entries that are not the caller are unchanged, and the
    caller's entries get the new [responseStatus]. *)
Theorem updatedAttendees_frame (user answer : string) (attendees : list Attendee) :
  Forall2 (λ a b, same_person a b
                  ∧ (is_user api user a = false -> b = a)
                  ∧ (is_user api user a = true ->
                     att_responseStatus b = Some answer))
          attendees (updatedAttendees api user answer attendees).
Proof.
  unfold updatedAttendees.
  induction attendees as [| a l IH]; simpl; constructor; [| exact IH].
  destruct (is_user api user a) eqn:Hu; unfold same_person; simpl;
    repeat split; auto; discriminate.
Qed.

(** X17: [respondToCalendarEvent] writes only when it found the caller
    among the attendees.  If no attendee is the caller it answers that
    the user was not found after the one [events.get] request; otherwise
    that request is followed by exactly one [events.patch] carrying the
    updated list. *)
Theorem respond_patches_only_when_found
        args s (user answer : string) (event : EventData) (g' : G)
        (attendees : list Attendee) :
  Js.prop args "user_id" = JsString user ->
  user ≠ "" ->
  truthy (Js.prop args "event_id") = true ->
  Js.prop args "response" = JsString answer ->
  valid_response (JsString answer) = true ->
  reply_event api
    (EventsGet (Js.or (Js.prop args "calendar_id") (JsString "primary"))
               (Js.prop args "event_id"))
    (remote_state s) = (Ok event, g') ->
  ev_attendees event = Some attendees ->
  attendees ≠ [] ->
  (existsb (is_user api user) attendees = false ->
   respondToCalendarEvent api args s
   = (Ok (failure ("User " +:+ user
                   +:+ " not found in the event's attendees list.")),
      mkRemote g'
        (requests s
         ++ [EventsGet (Js.or (Js.prop args "calendar_id") (JsString "primary"))
                       (Js.prop args "event_id")])))
  ∧ (existsb (is_user api user) attendees = true ->
     ∃ out s',
       respondToCalendarEvent api args s = (Ok out, s')
       ∧ requests s'
         = requests s
           ++ [EventsGet (Js.or (Js.prop args "calendar_id") (JsString "primary"))
                         (Js.prop args "event_id");
               EventsPatchAttendees
                 (Js.or (Js.prop args "calendar_id") (JsString "primary"))
                 (Js.prop args "event_id")
                 (updatedAttendees api user answer attendees)
                 (sendUpdates_unless_false (Js.prop args "send_notification"))]).
Proof.
  intros Hu Hne He Hr Hv Hget Hatt Hnonempty.
  destruct (valid_response_inv _ Hv) as (_ & _ & Ht).
  unfold respondToCalendarEvent, bind, require, try_catch, send, ret, throw.
  unfold USER_ID_ARG, GmailTools.USER_ID_ARG, CALENDAR_ID_ARG.
  rewrite Hu, (truthy_nonempty user Hne), He, Hr, Hv.
  change (truthy (JsString answer)) with (negb (String.eqb answer "")) in *.
  rewrite Ht. change (negb true || negb true) with false. cbv beta iota.
  rewrite Hget, Hatt. destruct attendees as [| a l]; [done |].
  split; intros Hfound; rewrite Hfound.
  - reflexivity.
  - change (negb true) with false. cbv beta iota.
    destruct (reply_json api _ _) as [[data | e] g''].
    + unfold text_of, lift, field, throw, ret.
      destruct (ToString (ev_summary event)); destruct data;
        eexists _, _; (split; [reflexivity |]); simpl;
        by rewrite <- app_assoc.
    + eexists _, _; (split; [reflexivity |]); simpl;
        by rewrite <- app_assoc.
Qed.

End CalendarFacts.

(** ** The server, beyond the credential claims *)

Section ServerFrame.

Context {G Content : Type} {JS : Engine}.
Variable gauth : Backend G Content.

Implicit Types (w : World G) (name : string) (args userId : JsValue).

Lemma keeps_servers_ret {A} (a : A) : keeps_servers (G:=G) (ret a).
Proof. by intros w r w' [= <- <-]. Qed.

Lemma keeps_servers_throw {A} (msg : string) :
  keeps_servers (G:=G) (A:=A) (throw msg).
Proof. by intros w r w' [= <- <-]. Qed.

Lemma keeps_servers_pure {A} (x : Res A) :
  keeps_servers (G:=G) (fun w => (x, w)).
Proof. by intros w r w' [= <- <-]. Qed.

Lemma keeps_servers_emit (e : Event) : keeps_servers (G:=G) (emit e).
Proof. by intros w r w' [= <- <-]. Qed.

Lemma keeps_servers_call {A} (e : Event) (f : G -> Res A * G) :
  keeps_servers (call e f).
Proof.
  intros w r w'. unfold call. destruct (f (backend w)). by intros [= <- <-].
Qed.

Lemma keeps_servers_bind {A B} (m : M (World G) A) (k : A -> M (World G) B) :
  keeps_servers m -> (∀ a, keeps_servers (k a)) -> keeps_servers (bind m k).
Proof.
  intros Hm Hk w r w'. unfold bind.
  destruct (m w) as [[a | e] w1] eqn:Hrun.
  - intros Hrest. rewrite (Hk a _ _ _ Hrest). exact (Hm _ _ _ Hrun).
  - intros [= <- <-]. exact (Hm _ _ _ Hrun).
Qed.

Lemma keeps_servers_try_catch {A} (m : M (World G) A)
      (h : Error -> M (World G) A) :
  keeps_servers m -> (∀ e, keeps_servers (h e)) ->
  keeps_servers (try_catch m h).
Proof.
  intros Hm Hh w r w'. unfold try_catch.
  destruct (m w) as [[a | e] w1] eqn:Hrun.
  - intros [= <- <-]. exact (Hm _ _ _ Hrun).
  - intros Hrest. rewrite (Hh e _ _ _ Hrest). exact (Hm _ _ _ Hrun).
Qed.

Lemma keeps_servers_userInfo (client : OAuth2Client) :
  keeps_servers (userInfo_of gauth client).
Proof.
  intros w r w'. unfold userInfo_of.
  destruct (getUserInfo gauth client (backend w)) as [[r0 c'] g'].
  by intros [= <- <-].
Qed.

Lemma keeps_servers_Date_now : keeps_servers (Date_now gauth).
Proof. by intros w r w' [= <- <-]. Qed.

End ServerFrame.

(** Walks through a computation of the server that touches no server
    object. *)
Ltac frame :=
  repeat first
    [ apply keeps_servers_ret
    | apply keeps_servers_throw
    | apply keeps_servers_pure
    | apply keeps_servers_emit
    | apply keeps_servers_call
    | apply keeps_servers_userInfo
    | apply keeps_servers_Date_now
    | apply keeps_servers_bind; [| intros ?]
    | apply keeps_servers_try_catch; [| intros ?]
    | match goal with
      | |- keeps_servers (if ?b then _ else _) => destruct b
      | |- keeps_servers (match ?x with _ => _ end) => destruct x
      end ].

Section ServerFacts.

Context {G Content : Type} {JS : Engine}.
Variable gauth : Backend G Content.

Implicit Types (w : World G) (name : string) (args userId : JsValue).

Lemma route_guarded_keeps_servers name args :
  keeps_servers (route_guarded gauth name args).
Proof. unfold route_guarded, route, logger_error. frame. Qed.

(** [startAuthFlow] adds one listening server object, or none when the
    authorization URL cannot be built. *)
Lemma startAuthFlow_servers userId w r w' :
  startAuthFlow gauth userId w = (r, w') ->
  servers w' = servers w ∨ servers w' = servers w ++ [SrvListening 4100].
Proof.
  destruct (getAuthorizationUrl gauth userId (backend w)) as [[url | e] g1] eqn:Hurl.
  - rewrite (startAuthFlow_run gauth userId w url g1 Hurl).
    intros [= <- <-]. by right.
  - unfold startAuthFlow, bind, call. rewrite Hurl. intros [= <- <-]. by left.
Qed.

Lemma setupOAuth2_servers userId w r w' :
  setupOAuth2 gauth userId w = (r, w') ->
  servers w' = servers w ∨ servers w' = servers w ++ [SrvListening 4100].
Proof.
  unfold setupOAuth2. unfold bind at 1.
  destruct (call EvGetAccountInfo (getAccountInfo gauth) w)
    as [[accounts | e] w1] eqn:H1;
    [| intros [= <- <-]; left; exact (keeps_servers_call _ _ _ _ _ H1)].
  pose proof (keeps_servers_call _ _ _ _ _ H1) as E1.
  destruct (length accounts =? 0)%nat;
    [intros [= <- <-]; by left |].
  destruct (negb _);
    [unfold bind, lift, throw; destruct (ToString userId);
     intros [= <- <-]; by left |].
  unfold bind at 1.
  destruct (call (EvGetStoredCredentials userId)
                 (getStoredCredentials gauth userId) w1)
    as [[stored | e] w2] eqn:H2;
    [| intros [= <- <-]; left;
       rewrite (keeps_servers_call _ _ _ _ _ H2); exact E1].
  pose proof (keeps_servers_call _ _ _ _ _ H2) as E2.
  destruct stored as [client |].
  - intros Hrest. left. rewrite <- E1, <- E2.
    revert Hrest. generalize w2 r w'.
    change (keeps_servers
              (bind (Date_now gauth)
                    (λ now,
                       bind (if credentials_expired (credentials client) now
                             then logger_error
                                    "credentials expired, trying refresh"
                             else ret tt)
                            (λ _,
                               bind (userInfo_of gauth client)
                                    (λ client',
                                       call
                                         (EvStoreCredentials client' userId)
                                         (storeCredentials gauth client'
                                                           userId)))))).
    unfold logger_error. frame.
  - intros Hrest. rewrite <- E1, <- E2.
    exact (startAuthFlow_servers _ _ _ _ Hrest).
Qed.

(** X18: a tool call never closes or alters a server object: the
    listeners that exist before the call are still there, in the same
    state, after it, and the call adds at most one, told to listen on
    port 4100.  Pending listeners are therefore only ever closed by a
    callback. *)
Theorem tool_calls_only_add_listeners name args w r w' :
  callTool gauth name args w = (r, w') ->
  servers w' = servers w ∨ servers w' = servers w ++ [SrvListening 4100].
Proof.
  destruct (typeof_object args && negb (is_null args)
            && negb (list_accounts_tool name)
            && truthy (get_prop args "user_id")) eqn:Hguard.
  - apply andb_true_iff in Hguard as [Hguard Huid].
    apply andb_true_iff in Hguard as [Hguard Hlist].
    apply andb_true_iff in Hguard as [Hobj Hnull].
    apply negb_true_iff in Hnull, Hlist.
    rewrite (callTool_protected gauth _ _ _ Hobj Hnull Hlist Huid).
    destruct (setupOAuth2 gauth (get_prop args "user_id") w)
      as [[[] | e] w1] eqn:Hsetup.
    + intros Hroute.
      rewrite (route_guarded_keeps_servers _ _ _ _ _ Hroute).
      exact (setupOAuth2_servers _ _ _ _ Hsetup).
    + intros [= <- <-]. simpl. exact (setupOAuth2_servers _ _ _ _ Hsetup).
  - intros Hrun. left. revert Hrun. generalize w r w'.
    change (keeps_servers (callTool gauth name args)).
    unfold callTool, list_accounts_tool in *.
    apply keeps_servers_try_catch; [| intros; unfold logger_error; frame].
    destruct (typeof_object args); simpl in *; [| frame].
    destruct (is_null args); simpl in *; [frame |].
    destruct (String.eqb name "gmail_list_accounts"
              || String.eqb name "calendar_list_accounts"); simpl in *;
      [apply route_guarded_keeps_servers |].
    rewrite Hguard. simpl. frame.
Qed.

(** X19: every request to the callback listener gets exactly one
    response, with status 200, 400 or 404, written in full before
    anything else happens and whatever the code exchange does
    afterwards; and no server object other than the listener's own is
    touched. *)
Theorem callback_answers_exactly_once (srv : nat) (req : Request) w :
  ∃ r w' status new,
    handleRequest gauth srv req w = (r, w')
    ∧ trace w' = trace w ++ new
    ∧ status ∈ [200; 400; 404]
    ∧ List.filter response_event new
      = EvWriteHead status
          :: (if status =? 200
              then [EvWriteBody "Auth successful! You can close the tab!"]
              else [])
          ++ [EvEnd]
    ∧ length (servers w') = length (servers w)
    ∧ (∀ j, j ≠ srv -> servers w' !! j = servers w !! j).
Proof.
  destruct (decide (pathname req = Some "/code")) as [Hp | Hp].
  - destruct (query_truthy (query req !! "code")) eqn:Hq.
    + destruct (query req !! "code") as [c |] eqn:Hc; [| discriminate].
      destruct (getCredentials gauth c (backend w)) as [[client | e] g1] eqn:Hx.
      * rewrite (handleRequest_code_ok gauth srv req w c client g1 Hp Hc Hq Hx).
        eexists _, _, 200, _. split; [reflexivity |].
        split; [reflexivity |]. split; [repeat constructor |].
        split; [reflexivity |]. simpl. split; [apply length_insert |].
        intros j Hj. by apply list_lookup_insert_ne.
      * rewrite (handleRequest_code_failed gauth srv req w c e g1 Hp Hc Hq Hx).
        eexists _, _, 200, _. split; [reflexivity |].
        split; [reflexivity |]. split; [repeat constructor |].
        split; [reflexivity |]. simpl. split; [reflexivity | done].
    + rewrite (handleRequest_no_code gauth srv req w Hp Hq).
      eexists _, _, 400, _. split; [reflexivity |].
      split; [reflexivity |]. split; [repeat constructor |].
      split; [reflexivity |]. simpl. split; [reflexivity | done].
  - rewrite (handleRequest_other_path gauth srv req w Hp).
    eexists _, _, 404, _. split; [reflexivity |].
    split; [reflexivity |]. split; [repeat constructor |].
    split; [reflexivity |]. simpl. split; [reflexivity | done].
Qed.

(** X20: with a stored record, [setupOAuth2] never starts an interactive
    flow and always goes through [getUserInfo], expired or not; the one
    difference expiry makes is the log line.  When [getUserInfo]
    succeeds, what is written back is the client object as that call
    left it; when it throws, nothing is written and no flow is started
    either. *)
Theorem stored_credentials_are_checked_and_rewritten
        (u : string) w accounts g1 client g2 :
  getAccountInfo gauth (backend w) = (Ok accounts, g1) ->
  (∃ a, a ∈ accounts ∧ email a = u) ->
  getStoredCredentials gauth (JsString u) g1 = (Ok (Some client), g2) ->
  ∃ r w' log rest,
    setupOAuth2 gauth (JsString u) w = (r, w')
    ∧ servers w' = servers w
    ∧ trace w' = trace w
                 ++ [EvGetAccountInfo; EvGetStoredCredentials (JsString u)]
                 ++ log ++ EvGetUserInfo client :: rest
    ∧ log = (if credentials_expired (credentials client) (date_now gauth g2)
             then [EvLogError "credentials expired, trying refresh"]
             else [])
    ∧ existsb flow_event (trace w') = existsb flow_event (trace w)
    ∧ match getUserInfo gauth client g2 with
      | (Ok _, client', _) => rest = [EvStoreCredentials client' (JsString u)]
      | (Throw e, _, _) => rest = [] ∧ r = Throw e
      end.
Proof.
  intros Hacc Hin Hst.
  destruct (existsb_email_true u accounts Hin) as [Hex Hlen].
  unfold setupOAuth2, bind, call, Date_now, userInfo_of, logger_error, emit.
  rewrite Hacc, Hlen, Hex. cbn [negb backend servers trace]. rewrite Hst.
  cbn [backend].
  destruct (credentials_expired (credentials client) (date_now gauth g2));
    unfold ret; cbn [backend servers trace];
    destruct (getUserInfo gauth client g2) as [[[ui | e] client'] g3];
    cbn [backend servers trace];
    try destruct (storeCredentials gauth client' (JsString u) g3) as [rs g4].
  - eexists _, _, [EvLogError "credentials expired, trying refresh"],
      [EvStoreCredentials client' (JsString u)].
    split; [reflexivity |]. cbn [servers trace]. split; [reflexivity |].
    split; [by rewrite <- !app_assoc |]. split; [reflexivity |].
    split; [| reflexivity].
    rewrite !existsb_app. simpl. by rewrite !orb_false_r.
  - eexists _, _, [EvLogError "credentials expired, trying refresh"], [].
    split; [reflexivity |]. cbn [servers trace]. split; [reflexivity |].
    split; [by rewrite <- !app_assoc |]. split; [reflexivity |].
    split; [| by split].
    rewrite !existsb_app. simpl. by rewrite !orb_false_r.
  - eexists _, _, [], [EvStoreCredentials client' (JsString u)].
    split; [reflexivity |]. cbn [servers trace]. split; [reflexivity |].
    split; [by rewrite <- !app_assoc |]. split; [reflexivity |].
    split; [| reflexivity].
    rewrite !existsb_app. simpl. by rewrite !orb_false_r.
  - eexists _, _, [], [].
    split; [reflexivity |]. cbn [servers trace]. split; [reflexivity |].
    split; [by rewrite <- !app_assoc |]. split; [reflexivity |].
    split; [| by split].
    rewrite !existsb_app. simpl. by rewrite !orb_false_r.
Qed.

(** X21: a refresh that fails is not followed by an interactive flow:
    when [getUserInfo] throws for an account with a stored record, the
    tool call is answered with the error result of the failed setup, no
    listener is created, nothing is opened and no tool method runs. *)
Theorem failed_refresh_starts_no_flow
        name (m : gmap string JsValue) (u : string) w accounts g1 client
        g2 e c' g3 :
  name ≠ "gmail_list_accounts" ->
  name ≠ "calendar_list_accounts" ->
  m !! "user_id" = Some (JsString u) ->
  u ≠ "" ->
  getAccountInfo gauth (backend w) = (Ok accounts, g1) ->
  (∃ a, a ∈ accounts ∧ email a = u) ->
  getStoredCredentials gauth (JsString u) g1 = (Ok (Some client), g2) ->
  getUserInfo gauth client g2 = ((Throw e, c'), g3) ->
  ∃ w',
    callTool gauth name (JsObject m) w
    = (Ok (mkResult true
             (ErrorPayload ("OAuth2 setup failed: " +:+ message e))), w')
    ∧ servers w' = servers w
    ∧ existsb flow_event (trace w') = existsb flow_event (trace w)
    ∧ existsb tool_event (trace w') = existsb tool_event (trace w)
    ∧ existsb store_event (trace w') = existsb store_event (trace w).
Proof.
  intros Hg Hc Hm Hu Hacc Hin Hst Hinfo.
  rewrite callTool_protected;
    [ | reflexivity | reflexivity | by apply not_list_accounts
      | simpl; rewrite Hm; by apply truthy_nonempty ].
  simpl get_prop. rewrite Hm. simpl default.
  destruct (existsb_email_true u accounts Hin) as [Hex Hlen].
  unfold setupOAuth2, bind, call, Date_now, userInfo_of, logger_error, emit.
  rewrite Hacc, Hlen, Hex. cbn [negb backend servers trace]. rewrite Hst.
  cbn [backend].
  destruct (credentials_expired (credentials client) (date_now gauth g2));
    unfold ret; cbn [backend servers trace]; rewrite Hinfo;
    cbn [backend servers trace];
    eexists; (split; [reflexivity |]); cbn [servers trace];
    (split; [reflexivity |]);
    rewrite !existsb_app; simpl; by rewrite !orb_false_r.
Qed.


(** X23: a name outside the tool tables is found out only after the
    credential setup: with a truthy [user_id] the handler first runs
    [setupOAuth2] (which can start an interactive flow) and only then
    answers "Unknown tool", without running any tool method. *)
Theorem unknown_tool_is_rejected_after_setup name args w w1 :
  name ∉ all_tool_names ->
  typeof_object args = true -> is_null args = false ->
  truthy (get_prop args "user_id") = true ->
  setupOAuth2 gauth (get_prop args "user_id") w = (Ok tt, w1) ->
  callTool gauth name args w
  = (Ok (mkResult true
           (ErrorPayload ("Tool execution failed: Unknown tool: " +:+ name))),
     mkWorld (backend w1) (servers w1)
             (trace w1 ++ [EvLogError ("Error handling tool " +:+ name +:+ ":")])).
Proof.
  intros Hnot Hobj Hnull Huid Hsetup.
  assert (Hlist : list_accounts_tool name = false).
  { unfold list_accounts_tool. apply orb_false_iff.
    split; apply String.eqb_neq; intros ->; apply Hnot;
      unfold all_tool_names; simpl; repeat constructor. }
  rewrite (callTool_protected gauth _ _ _ Hobj Hnull Hlist Huid), Hsetup.
  assert (Hroute : route gauth name args w1
                   = (Throw (mkError ("Unknown tool: " +:+ name)), w1)).
  { unfold route.
    destruct (String.prefix "gmail_" name);
      [| destruct (String.prefix "calendar_" name); [| reflexivity]].
    - destruct (GmailTools.handleTool name args) as [c | e] eqn:Hc.
      + exfalso. apply Hnot. revert Hc.
        unfold GmailTools.handleTool, all_tool_names. simpl.
        repeat (match goal with
                | |- context [String.eqb name ?lit] =>
                    destruct (String.eqb_spec name lit) as [-> | ?];
                    [intros _; repeat constructor |]
                end);
          discriminate.
      + revert Hc. unfold GmailTools.handleTool.
        repeat (match goal with
                | |- context [String.eqb name ?lit] =>
                    destruct (String.eqb name lit); [discriminate |]
                end).
        by intros [= <-].
    - destruct (CalendarTools.handleTool name args) as [c | e] eqn:Hc.
      + exfalso. apply Hnot. revert Hc.
        unfold CalendarTools.handleTool, all_tool_names. simpl.
        repeat (match goal with
                | |- context [String.eqb name ?lit] =>
                    destruct (String.eqb_spec name lit) as [-> | ?];
                    [intros _; repeat constructor |]
                end);
          discriminate.
      + revert Hc. unfold CalendarTools.handleTool.
        repeat (match goal with
                | |- context [String.eqb name ?lit] =>
                    destruct (String.eqb name lit); [discriminate |]
                end).
        by intros [= <-]. }
  unfold route_guarded, try_catch, bind. rewrite Hroute. reflexivity.
Qed.

(** X24: what counts as a dictionary: [undefined], [null], booleans,
    numbers and strings are refused with "arguments must be dictionary"
    and nothing happens; an array passes that test and, for a tool that
    needs a [user_id], is refused only by the next one, as a missing
    [user_id]. *)
Theorem arguments_must_be_an_object name args w :
  (typeof_object args = false ∨ args = JsNull ->
   callTool gauth name args w
   = (Ok (mkResult true (ErrorPayload "arguments must be dictionary")), w))
  ∧ (∀ xs, args = JsArray xs -> list_accounts_tool name = false ->
           callTool gauth name args w
           = (Ok (mkResult true
                    (ErrorPayload "user_id argument is missing in dictionary")),
              w)).
Proof.
  split.
  - intros [Hobj | ->]; apply try_catch_ok; [by rewrite Hobj | reflexivity].
  - intros xs -> Hlist. apply try_catch_ok. unfold list_accounts_tool in Hlist.
    simpl. by rewrite Hlist.
Qed.

(** X25: the standalone script's listener, unlike the server's, answers
    after the exchange and stops either way: a request carrying a code is
    answered 200 and the process exits with status 0 when the exchange
    succeeds, 500 with the error text and status 1 when it throws, and in
    both cases the listener has been closed first; the handler itself
    never throws. *)
Theorem helper_stops_after_one_code (srv : nat) (req : Request) w c :
  pathname req = Some "/code" ->
  query req !! "code" = Some c ->
  query_truthy (Some c) = true ->
  ∃ status w' new,
    AuthHelper.handleRequest gauth srv req w = (Ok (Some status), w')
    ∧ servers w' = <[srv := SrvClosed]> (servers w)
    ∧ trace w' = trace w ++ EvGetCredentials c :: new ++ [EvEnd; EvClose srv]
    ∧ match getCredentials gauth c (backend w) with
      | (Ok _, _) =>
          status = 0
          ∧ new = [EvWriteHead 200;
                   EvWriteBody
                     "Authentication successful! You can close this tab."]
      | (Throw e, _) =>
          status = 1
          ∧ new = [EvWriteHead 500;
                   EvWriteBody ("Authentication failed: " +:+ message e)]
      end.
Proof.
  intros Hp Hc Ht. unfold AuthHelper.handleRequest.
  rewrite (bool_decide_eq_true_2 _ Hp), Hc, Ht.
  change (negb true) with false. cbv beta iota.
  unfold try_catch, bind, call, AuthHelper.end_with, server_close,
    set_server, emit, bind, ret.
  destruct (getCredentials gauth c (backend w)) as [[client | e] g1];
    cbn [backend servers trace].
  - eexists 0, _, _. split; [reflexivity |]. cbn [servers trace].
    split; [reflexivity |]. split; [| by split].
    by rewrite <- !app_assoc.
  - eexists 1, _, _. split; [reflexivity |]. cbn [servers trace].
    split; [reflexivity |]. split; [| by split].
    by rewrite <- !app_assoc.
Qed.

End ServerFacts.

(** ** The tool methods behind the server *)

Section LayerFacts.

Context {G Content : Type} {JS : Engine}.
Variable gauth : Backend G Content.
Variable api : Api G.

(** X26: the two [list_accounts] tools need no [user_id] and no
    credentials: for any arguments object the handler runs the one tool
    method, starts no setup and no flow, sends no API request, and the
    answer is never an error result; a failure to read the accounts
    comes back inside the content. *)
Theorem list_accounts_needs_no_credentials
        (name : string) (args : JsValue) (w : World (Remote G)) :
  list_accounts_tool name = true ->
  typeof_object args = true -> is_null args = false ->
  ∃ out w' ev,
    callTool (ToolLayer.implement gauth api) name args w
    = (Ok (mkResult false (ToolContent [Json out])), w')
    ∧ trace w' = trace w ++ [ev]
    ∧ tool_event ev = true
    ∧ servers w' = servers w
    ∧ requests (backend w') = requests (backend w).
Proof.
  intros Hlist Hobj Hnull.
  destruct (listAccounts_total gauth api (backend w))
    as (out & s' & Hrun & Hreq & _).
  assert (Hname : name = "gmail_list_accounts"
                  ∨ name = "calendar_list_accounts").
  { unfold list_accounts_tool in Hlist. apply orb_true_iff in Hlist.
    destruct Hlist as [H | H]; apply String.eqb_eq in H; auto. }
  exists out.
  destruct Hname as [-> | ->].
  - exists (mkWorld s' (servers w) (trace w ++ [EvGmail listAccounts])),
      (EvGmail listAccounts).
    split; [| by repeat split].
    apply try_catch_ok. rewrite Hobj, Hnull. simpl.
    unfold route_guarded, try_catch, bind, route. simpl.
    unfold call. simpl. by rewrite Hrun.
  - exists (mkWorld s' (servers w) (trace w ++ [EvCalendar calListAccounts])),
      (EvCalendar calListAccounts).
    split; [| by repeat split].
    apply try_catch_ok. rewrite Hobj, Hnull. simpl.
    unfold route_guarded, try_catch, bind, route. simpl.
    unfold call. simpl. by rewrite Hrun.
Qed.

(** X27: [createDraft] and [sendEmail] build the same message except for
    the [Cc] header: a draft always carries a [Cc:] line, empty when no
    [cc] is given, while a sent message carries one only for a non-empty
    [cc].  When [to], [subject], [body] and the elements of [cc] can all
    be converted to text, either method sends exactly one request, with
    those texts; when one of them cannot, both methods throw and send
    nothing. *)
Theorem draft_and_sent_message_differ_in_cc
        (args : gmap string JsValue) (s : Remote G) (xs : list JsValue) :
  truthy (Js.prop args "user_id") = true ->
  truthy (Js.prop args "to") = true ->
  truthy (Js.prop args "subject") = true ->
  truthy (Js.prop args "body") = true ->
  Js.or (Js.prop args "cc") (JsArray []) = JsArray xs ->
  match ToString (Js.prop args "to"), ToString (Js.prop args "subject"),
        ToString (Js.prop args "body"), Js.join ", " xs with
  | Ok toText, Ok subjectText, Ok bodyText, Ok ccList =>
      (∃ r s',
         GmailMethods.createDraft api args s = (r, s')
         ∧ requests s'
           = requests s
             ++ [GmailDraftsCreate (Js.prop args "user_id")
                   (base64url api
                      ("To: " +:+ toText +:+ Js.CRLF
                       +:+ "Subject: " +:+ subjectText +:+ Js.CRLF
                       +:+ "Cc: " +:+ ccList +:+ Js.CRLF
                       +:+ GmailMethods.content_type_lines
                       +:+ bodyText))
                   None])
      ∧ (∃ r s',
           GmailMethods.sendEmail api args s = (r, s')
           ∧ requests s'
             = requests s
               ++ [GmailMessagesSend (Js.prop args "user_id")
                     (base64url api
                        ("To: " +:+ toText +:+ Js.CRLF
                         +:+ "Subject: " +:+ subjectText +:+ Js.CRLF
                         +:+ (if bool_decide (xs = []) then ""
                              else "Cc: " +:+ ccList +:+ Js.CRLF)
                         +:+ GmailMethods.content_type_lines
                         +:+ bodyText))
                     None])
  | _, _, _, _ =>
      (∃ e, GmailMethods.createDraft api args s = (Throw e, s))
      ∧ (∃ e, GmailMethods.sendEmail api args s = (Throw e, s))
  end.
Proof.
  intros Hu Ht Hs Hb Hcc.
  assert (Hnil : xs = [] -> ∃ text, Js.join ", " xs = Ok text).
  { intros ->. by exists "". }
  unfold GmailMethods.createDraft, GmailMethods.sendEmail.
  unfold GmailMethods.USER_ID_ARG, GmailTools.USER_ID_ARG.
  rewrite Hu, Ht, Hs, Hb, Hcc.
  unfold GmailMethods.length_positive, require, array_join, text_of.
  rewrite !bind_ret_l.
  destruct (ToString (Js.prop args "to")) as [toText | e1];
    destruct (ToString (Js.prop args "subject")) as [subjectText | e2];
    destruct (ToString (Js.prop args "body")) as [bodyText | e3];
    destruct (Js.join ", " xs) as [ccList | e4] eqn:Hjoin;
    unfold bind, lift, send, ret; cbv beta iota.
  all: destruct (decide (xs = [])) as [Hxs | Hxs];
    [ rewrite ?(bool_decide_eq_true_2 _ Hxs)
    | rewrite ?(bool_decide_eq_false_2 _ Hxs) ];
    cbn [negb]; cbv beta iota.
  all: try (destruct (Hnil Hxs) as [? [=]]).
  all: split.
  all: try (eexists; reflexivity).
  all: match goal with
       | |- context [reply_json api ?q ?g] =>
           destruct (reply_json api q g) as [[result | ?] ?]
       end.
  all: unfold field, throw, ret; try destruct result.
  all: eexists _, _; split; reflexivity.
Qed.

End LayerFacts.

(** ** The tool properties on concrete inputs *)

Section ToolWitnesses.

Import CredentialLayer Fixtures Samples.

Lemma extractEmailHeaders_sound_witness :
  MailExtract.extractEmailHeaders lower
    [mkHeader (Some "Subject") (Some "Hello");
     mkHeader (Some "X-Mailer") (Some "none")] !! "subject" = Some "Hello"
  ∧ "subject" ∈ MailExtract.importantHeaders.
Proof.
  assert (H : MailExtract.extractEmailHeaders lower
                [mkHeader (Some "Subject") (Some "Hello");
                 mkHeader (Some "X-Mailer") (Some "none")] !! "subject"
              = Some "Hello") by reflexivity.
  split; [exact H |].
  exact (proj1 (extractEmailHeaders_sound lower _ _ _ H)).
Defined.

Lemma extractEmailHeaders_last_wins_witness :
  MailExtract.extractEmailHeaders lower
    ([mkHeader (Some "Subject") (Some "first")]
     ++ mkHeader (Some "SUBJECT") (Some "second")
     :: [mkHeader (Some "From") (Some "b@x.com")]) !! lower "SUBJECT"
  = Some "second".
Proof.
  apply (extractEmailHeaders_last_wins lower
           [mkHeader (Some "Subject") (Some "first")]
           [mkHeader (Some "From") (Some "b@x.com")]
           (mkHeader (Some "SUBJECT") (Some "second")) "SUBJECT" "second");
    try reflexivity.
  - vm_compute. repeat constructor.
  - intros h' n' Hin _ Hn.
    apply list_elem_of_singleton in Hin. subst h'. simpl in Hn.
    injection Hn as <-. discriminate.
Defined.

Lemma extractEmailText_prefers_plain_witness :
  MailExtract.extractEmailText (fun s => s)
    (multipart [html_part "PGI+"; plain_part "aGk="]) = "aGk=".
Proof.
  apply (proj1 (extractEmailText_prefers_plain (fun s => s)
                  (multipart [html_part "PGI+"; plain_part "aGk="])
                  [html_part "PGI+"; plain_part "aGk="]
                  (plain_part "aGk=")
                  ltac:(intros [_ H]; discriminate H) eq_refl eq_refl)).
  reflexivity.
Defined.


Lemma required_arguments_enforced_witness :
  let m := args_of [("user_id", JsString "a@x.com");
                    ("summary", JsString "Review");
                    ("start_time", JsString "2024-01-01T10:00:00Z")] in
  m !! "end_time" = None
  ∧ ∃ e, ToolList.run_tool service api "calendar_create_event" (JsObject m)
                           (mkRemote (backend fresh) [])
         = (Throw e, mkRemote (backend fresh) []).
Proof.
  intros m. split; [reflexivity |].
  apply (required_arguments_enforced service api None
           (GmailTools.mkTool "calendar_create_event"
              [GmailTools.USER_ID_ARG; "summary"; "start_time"; "end_time"])
           "end_time" m).
  - unfold ToolList.listTools, ToolList.calendarTools.
    apply elem_of_app. right. repeat constructor.
  - simpl. repeat constructor.
  - reflexivity.
Defined.

Lemma notification_defaults_witness :
  let args := args_of [("user_id", JsString "a@x.com");
                       ("event_id", JsString "e1")] in
  let s0 := mkRemote (backend fresh) [] in
  args !! "send_notifications" = None
  ∧ ∃ new, requests (snd (CalendarMethods.deleteCalendarEvent api args s0))
           = requests s0 ++ new
           ∧ Forall (λ q, sendUpdates_of q = Some "none") new.
Proof.
  intros args s0. split; [reflexivity |].
  apply (proj1 (proj2 (notification_defaults api args s0 eq_refl))
               (fst (CalendarMethods.deleteCalendarEvent api args s0))).
  apply surjective_pairing.
Defined.

Lemma createCalendarEvent_tests_presence_witness :
  let args := args_of [("user_id", JsString "a@x.com");
                       ("summary", JsString "");
                       ("start_time", JsNull);
                       ("end_time", JsString "")] in
  let s0 := mkRemote (backend fresh) [] in
  truthy (Js.prop args "user_id") = true
  ∧ ∃ r s',
      CalendarMethods.createCalendarEvent api args s0 = (r, s')
      ∧ requests s'
        = [EventsInsert
             (JsString "primary")
             (Js.obj
                [("summary", JsString "");
                 ("location", JsUndefined);
                 ("description", JsUndefined);
                 ("start", Js.obj [("dateTime", JsNull);
                                   ("timeZone", JsString "UTC")]);
                 ("end", Js.obj [("dateTime", JsString "");
                                 ("timeZone", JsString "UTC")]);
                 ("attendees", JsUndefined)])
             "none"].
Proof.
  intros args s0. split; [reflexivity |].
  apply (proj2 (proj2 (createCalendarEvent_tests_presence api args s0 eq_refl))).
  - intros k Hk. unfold CalendarMethods.required_keys in Hk.
    repeat (apply elem_of_cons in Hk as [-> | Hk]);
      [by eexists | by eexists | by eexists | by apply elem_of_nil in Hk].
  - reflexivity.
Defined.

Lemma calendar_changes_never_throw_witness :
  let args := args_of [("user_id", JsString "a@x.com");
                       ("event_id", JsString "e1")] in
  let s0 := mkRemote (backend fresh) [] in
  truthy (Js.prop args "user_id") = true
  ∧ truthy (Js.prop args "event_id") = true
  ∧ ∃ out s', CalendarMethods.updateCalendarEvent api args s0 = (Ok out, s').
Proof.
  intros args s0. split; [reflexivity |]. split; [reflexivity |].
  exact (proj1 (calendar_changes_never_throw api args s0 eq_refl eq_refl)).
Defined.

Lemma respond_patches_only_when_found_witness :
  let args := args_of [("user_id", JsString "A@x.com");
                       ("event_id", JsString "e1");
                       ("response", JsString "accepted")] in
  let s0 := mkRemote (backend fresh) [] in
  existsb (CalendarMethods.is_user api "A@x.com")
          [guest "a@x.com"; guest "b@x.com"] = true
  ∧ ∃ out s',
      CalendarMethods.respondToCalendarEvent api args s0 = (Ok out, s')
      ∧ requests s'
        = requests s0
          ++ [EventsGet (JsString "primary") (JsString "e1");
              EventsPatchAttendees (JsString "primary") (JsString "e1")
                [mkAttendee (Some "a@x.com") false (Some "accepted") ∅;
                 guest "b@x.com"]
                "all"].
Proof.
  intros args s0. split; [reflexivity |].
  apply (proj2 (respond_patches_only_when_found api args s0 "A@x.com"
                  "accepted" meeting (backend fresh)
                  [guest "a@x.com"; guest "b@x.com"]
                  eq_refl ltac:(discriminate) eq_refl eq_refl eq_refl
                  eq_refl eq_refl ltac:(discriminate))).
  reflexivity.
Defined.

Lemma tool_calls_only_add_listeners_witness :
  servers (snd (callTool service "gmail_query_emails" (args_for "a@x.com") pending))
  = servers pending
  ∨ servers (snd (callTool service "gmail_query_emails" (args_for "a@x.com") pending))
    = servers pending ++ [SrvListening 4100].
Proof.
  apply (tool_calls_only_add_listeners service "gmail_query_emails"
           (args_for "a@x.com") pending
           (fst (callTool service "gmail_query_emails" (args_for "a@x.com") pending))).
  apply surjective_pairing.
Defined.

Lemma stored_credentials_are_checked_and_rewritten_witness :
  store (backend stored) !! "a@x.com" = Some tokens_old
  ∧ ∃ r w' log rest,
      setupOAuth2 service (JsString "a@x.com") stored = (r, w')
      ∧ servers w' = servers stored
      ∧ trace w' = trace stored
                   ++ [EvGetAccountInfo;
                       EvGetStoredCredentials (JsString "a@x.com")]
                   ++ log ++ EvGetUserInfo (mkClient tokens_old) :: rest
      ∧ log = (if credentials_expired tokens_old t0
               then [EvLogError "credentials expired, trying refresh"]
               else [])
      ∧ existsb flow_event (trace w') = existsb flow_event (trace stored)
      ∧ match CredentialLayer.getUserInfo (mkClient tokens_old) (backend stored) with
        | (Ok _, client', _) =>
            rest = [EvStoreCredentials client' (JsString "a@x.com")]
        | (Throw e, _, _) => rest = [] ∧ r = Throw e
        end.
Proof.
  split; [reflexivity |].
  apply (stored_credentials_are_checked_and_rewritten service "a@x.com" stored
           two_accounts (backend stored) (mkClient tokens_old) (backend stored));
    try reflexivity.
  exists (acct "a@x.com"). split; [constructor | reflexivity].
Defined.

Lemma failed_refresh_starts_no_flow_witness :
  refresh_reply (backend stale) "gone" = RefreshRejected
  ∧ ∃ w',
      callTool service "gmail_query_emails" (args_for "a@x.com") stale
      = (Ok (mkResult true
               (ErrorPayload ("OAuth2 setup failed: "
                              +:+ message (mkError "ReauthRequired")))), w')
      ∧ servers w' = servers stale
      ∧ existsb flow_event (trace w') = existsb flow_event (trace stale)
      ∧ existsb tool_event (trace w') = existsb tool_event (trace stale)
      ∧ existsb store_event (trace w') = existsb store_event (trace stale).
Proof.
  split; [reflexivity |].
  apply (failed_refresh_starts_no_flow service "gmail_query_emails"
           (<["user_id" := JsString "a@x.com"]> ∅) "a@x.com" stale
           two_accounts (backend stale) (mkClient tokens_revoked)
           (backend stale) (mkError "ReauthRequired")
           (mkClient tokens_revoked) (backend stale));
    try discriminate; try reflexivity.
  exists (acct "a@x.com"). split; [constructor | reflexivity].
Defined.

Lemma unknown_tool_is_rejected_after_setup_witness :
  ("weather_today" ∉ all_tool_names)
  ∧ callTool service "weather_today" (args_for "a@x.com") stored
    = (Ok (mkResult true
             (ErrorPayload ("Tool execution failed: Unknown tool: "
                            +:+ "weather_today"))),
       let w1 := snd (setupOAuth2 service (JsString "a@x.com") stored) in
       mkWorld (backend w1) (servers w1)
               (trace w1
                ++ [EvLogError ("Error handling tool " +:+ "weather_today"
                                +:+ ":")])).
Proof.
  assert (Hnot : "weather_today" ∉ all_tool_names).
  { unfold all_tool_names. simpl. intros H.
    repeat (apply elem_of_cons in H as [H | H]; [discriminate H |]).
    by apply elem_of_nil in H. }
  split; [exact Hnot |].
  apply (unknown_tool_is_rejected_after_setup service "weather_today"
           (args_for "a@x.com") stored
           (snd (setupOAuth2 service (JsString "a@x.com") stored)) Hnot);
    reflexivity.
Defined.

Lemma helper_stops_after_one_code_witness :
  ∃ status w' new,
    AuthHelper.handleRequest service 0
      (code_request (<["code" := QStr "BAD"]> ∅)) pending
    = (Ok (Some status), w')
    ∧ servers w' = <[0%nat := SrvClosed]> (servers pending)
    ∧ trace w' = trace pending
                 ++ EvGetCredentials (QStr "BAD") :: new ++ [EvEnd; EvClose 0]
    ∧ match CredentialLayer.getCredentials (QStr "BAD") (backend pending) with
      | (Ok _, _) =>
          status = 0
          ∧ new = [EvWriteHead 200;
                   EvWriteBody
                     "Authentication successful! You can close this tab."]
      | (Throw e, _) =>
          status = 1
          ∧ new = [EvWriteHead 500;
                   EvWriteBody ("Authentication failed: " +:+ message e)]
      end.
Proof.
  apply (helper_stops_after_one_code service 0
           (code_request (<["code" := QStr "BAD"]> ∅)) pending (QStr "BAD"));
    reflexivity.
Defined.

Lemma list_accounts_needs_no_credentials_witness :
  ∃ out w' ev,
    callTool (ToolLayer.implement service api) "gmail_list_accounts"
             (JsObject ∅) (remote_of fresh)
    = (Ok (mkResult false (ToolContent [Json out])), w')
    ∧ trace w' = trace (remote_of fresh) ++ [ev]
    ∧ tool_event ev = true
    ∧ servers w' = servers (remote_of fresh)
    ∧ requests (backend w') = requests (backend (remote_of fresh)).
Proof.
  apply (list_accounts_needs_no_credentials service api "gmail_list_accounts"
           (JsObject ∅) (remote_of fresh));
    reflexivity.
Defined.

Lemma draft_and_sent_message_differ_in_cc_witness :
  let args := args_of [("user_id", JsString "a@x.com");
                       ("to", JsString "b@x.com");
                       ("subject", JsString "Hi");
                       ("body", JsString "See you")] in
  let s0 := mkRemote (backend fresh) [] in
  Js.or (Js.prop args "cc") (JsArray []) = JsArray []
  ∧ ∃ r s',
      GmailMethods.sendEmail api args s0 = (r, s')
      ∧ requests s'
        = requests s0
          ++ [GmailMessagesSend (JsString "a@x.com")
                ("To: b@x.com" +:+ Js.CRLF +:+ "Subject: Hi" +:+ Js.CRLF
                 +:+ GmailMethods.content_type_lines +:+ "See you")
                None].
Proof.
  intros args s0. split; [reflexivity |].
  exact (proj2 (draft_and_sent_message_differ_in_cc api args s0 []
                  eq_refl eq_refl eq_refl eq_refl eq_refl)).
Defined.

End ToolWitnesses.
